(** * hyperliquid_requester: quote generation and parameter acquisition

    A shallow embedding of the Python package [hyperliquid_requester]
    ([models.py], [market_maker.py], [agent_market.py],
    [hyperliquid_api.py]) together with the properties its written
    specification states about it.

    Modelling conventions.
    - Python [float] values are modelled by exact rationals ([Q]); the
      arithmetic below is the arithmetic the code writes, without binary64
      rounding error.  Equality of numbers is [Qeq] ([==]).
    - Python [str] values are modelled by [string] (8-bit characters).
    - A [dict] used as a map is a [gmap string _]; a dict with a fixed set
      of keys that may be absent is a record of [option] fields.
    - A raised exception is the [Raise] case of [result]. *)

From Stdlib Require Import QArith Qround Qabs Lqa ZArith Lia.
From Stdlib Require Import Ascii String List.
From stdpp Require Import gmap strings list fin_maps.

Local Open Scope Q_scope.

(** ** Python values *)

Module Py.

(** Exceptions, by class; the payload is the message. *)
Inductive exn : Type :=
  | ZeroDivisionError
  | ValueError (msg : string)
  | RuntimeError (msg : string)
  | AgentMarketError (msg : string)
  | RequestException (msg : string)
  | JSONDecodeError
  | OtherException (msg : string).

Inductive result (A : Type) : Type :=
  | Ok (a : A)
  | Raise (e : exn).
Arguments Ok {A} a.
Arguments Raise {A} e.

Definition bind {A B : Type} (m : result A) (k : A -> result B) : result B :=
  match m with
  | Ok a => k a
  | Raise e => Raise e
  end.

(** A computation raised, resp. returned. *)
Definition raised {A : Type} (r : result A) : Prop := exists e, r = Raise e.
Definition returned {A : Type} (r : result A) : Prop := exists a, r = Ok a.

Definition Qltb (a b : Q) : bool := negb (Qle_bool b a).

(** [max(a, b)]: the first argument unless the second is strictly larger. *)
Definition max (a b : Q) : Q := if Qltb a b then b else a.

(** [min(a, b)]: the first argument unless the second is strictly smaller. *)
Definition min (a b : Q) : Q := if Qltb b a then b else a.

(** Truth value of a number: nonzero. *)
Definition truthy (x : Q) : bool := negb (Qeq_bool x 0).

(** [a / b] on floats: raises on a zero divisor. *)
Definition div (a b : Q) : result Q :=
  if Qeq_bool b 0 then Raise ZeroDivisionError else Ok (a / b).

(** Rounding to the nearest integer, ties to the even one. *)
Definition round_half_even (x : Q) : Z :=
  let f := Qfloor x in
  match Qcompare (x - inject_Z f) (1 # 2) with
  | Lt => f
  | Gt => (f + 1)%Z
  | Eq => if Z.even f then f else (f + 1)%Z
  end.

(** [round(x)] *)
Definition round0 (x : Q) : Z := round_half_even x.

(** [round(x, ndigits)] *)
Definition round (x : Q) (ndigits : Z) : Q :=
  let scale := Qpower (10 # 1) ndigits in
  inject_Z (round_half_even (x * scale)) / scale.

End Py.

Import Py.

#[global] Instance result_ret : MRet result := @Ok.
#[global] Instance result_bind : MBind result := fun A B k m => Py.bind m k.

(** ** models.py *)

Record SymbolSnapshot : Type := {
  symbol : string;
  mid_price : Q;
  sz_decimals : Z;
  inventory : Q;
  change_24h : option Q;
  notional_liquidity : option Q
}.

(** ** market_maker.py: the quote calculator *)

(** The [parameters] object of an analysis; [inventoryRiskWeight] is read
    with [dict.get] and may be absent. *)
Record Params : Type := {
  gamma : Q;
  sigma : Q;
  kappa : Q;
  timeHorizon : Q;
  inventoryRiskWeight : option Q
}.

Definition DEFAULT_MARKETS : list string :=
  ["BTC-PERP"; "ETH-PERP"; "SOL-PERP"]%string.

Record StrategySettings : Type := {
  portfolio_value : Q;
  min_order_value : Q;
  primary_markets : list string
}.

(** The dataclass constructor with its [__post_init__]. *)
Definition mkStrategySettings (pv mov : Q) (markets : list string) : StrategySettings :=
  {| portfolio_value := pv;
     min_order_value := mov;
     primary_markets := match markets with [] => DEFAULT_MARKETS | _ => markets end |}.

Definition calculate_spreads (params : Params) (current_inventory max_inventory : Q) : Q * Q :=
  let T := timeHorizon params / 60 in
  let inv_weight := default (2 # 10) (inventoryRiskWeight params) in
  let base_spread := gamma params * sigma params * sigma params * T in
  let inventory_ratio :=
    if truthy max_inventory then current_inventory / max_inventory else 0 in
  let inventory_skew := inv_weight * inventory_ratio in
  (base_spread - inventory_skew, base_spread + inventory_skew).

(** The clamp the cycle applies to each spread:
    [max(min_spread, min(spread, max_spread))]. *)
Definition clamp_spread (min_spread max_spread spread : Q) : Q :=
  Py.max min_spread (Py.min spread max_spread).

Inductive Side : Type := Bid | Ask.

Definition calculate_position_size
    (price max_position current_inventory : Q) (settings : StrategySettings)
    (side : Side) : result Q :=
  let n := Z.max (Z.of_nat (length (primary_markets settings))) 1 in
  let capital_per_market := portfolio_value settings / inject_Z n in
  let max_notional := capital_per_market * (1 # 2) in
  max_qty_by_capital ← Py.div max_notional price;
  if Qle_bool max_position 0 then Ok 0 else
  let max_qty := Py.min max_qty_by_capital max_position in
  let damp := Py.max (3 # 10) (1 - Qabs current_inventory / max_position) in
  let inventory_factor :=
    match side with
    | Bid => if Qltb 0 current_inventory then damp else 1
    | Ask => if Qltb current_inventory 0 then damp else 1
    end in
  let qty := max_qty * inventory_factor in
  min_qty ← Py.div (min_order_value settings) price;
  if Qltb qty min_qty then Ok 0 else Ok qty.

Definition round_size (size : Q) (decimals : Z) : Q := Py.round size decimals.

Definition round_price (price : Q) : Q :=
  if Qle_bool 10000 price then inject_Z (Py.round0 (price / 10) * 10)
  else if Qle_bool 100 price then inject_Z (Py.round0 price)
  else if Qle_bool 10 price then Py.round price 1
  else if Qle_bool 1 price then Py.round price 2
  else Py.round price 4.

(** ** Strings

    Case mapping and whitespace are those of the ASCII range. *)

Module Str.

Definition upper_char (c : ascii) : ascii :=
  let n := nat_of_ascii c in
  if (97 <=? n)%nat && (n <=? 122)%nat then ascii_of_nat (n - 32) else c.

Definition lower_char (c : ascii) : ascii :=
  let n := nat_of_ascii c in
  if (65 <=? n)%nat && (n <=? 90)%nat then ascii_of_nat (n + 32) else c.

Fixpoint map_chars (f : ascii -> ascii) (s : string) : string :=
  match s with
  | EmptyString => EmptyString
  | String c s' => String (f c) (map_chars f s')
  end.

(** [s.upper()] and [s.lower()] *)
Definition upper (s : string) : string := map_chars upper_char s.
Definition lower (s : string) : string := map_chars lower_char s.

(** [str.isspace] on one character. *)
Definition is_space (c : ascii) : bool :=
  let n := nat_of_ascii c in
  ((9 <=? n)%nat && (n <=? 13)%nat) || ((28 <=? n)%nat && (n <=? 32)%nat).

Fixpoint lstrip (s : string) : string :=
  match s with
  | String c s' => if is_space c then lstrip s' else s
  | EmptyString => EmptyString
  end.

Fixpoint rstrip (s : string) : string :=
  match s with
  | EmptyString => EmptyString
  | String c s' =>
      match rstrip s' with
      | EmptyString => if is_space c then EmptyString else String c EmptyString
      | r => String c r
      end
  end.

(** [s.strip()] *)
Definition strip (s : string) : string := rstrip (lstrip s).

(** [s.endswith(suffix)] *)
Definition endswith (s suffix : string) : bool :=
  let n := String.length s in
  let k := String.length suffix in
  (k <=? n)%nat && String.eqb (String.substring (n - k) k s) suffix.

(** Truth value of a string: non-empty. *)
Definition nonempty (s : string) : bool :=
  match s with EmptyString => false | _ => true end.

End Str.

(** ** hyperliquid_api.py *)

Definition _normalize_tif (value : string) : result string :=
  let key := Str.upper (Str.strip (if Str.nonempty value then value else "GTC")) in
  if String.eqb key "GTC" then Ok "Gtc"%string
  else if String.eqb key "IOC" then Ok "Ioc"%string
  else if String.eqb key "ALO" then Ok "Alo"%string
  else Raise (ValueError ("Unsupported time-in-force '" ++ value ++ "'")).

Definition _symbol_to_coin (symbol : string) : string :=
  let name := Str.upper symbol in
  if Str.endswith name "-PERP"
  then String.substring 0 (String.length name - 5) name
  else name.

(** One entry of [get_positions()]. *)
Record Position : Type := {
  pos_coin : string;
  pos_symbol : string;
  pos_szi : Q
}.

(** One value of [get_tickers()]; read with [dict.get], so each key may be
    absent.  The empty dict is the ticker with no key. *)
Record Ticker : Type := {
  tk_price : option Q;
  tk_mid : option Q;
  tk_szDecimals : option Z
}.

Definition ticker_is_empty (t : Ticker) : bool :=
  match tk_price t, tk_mid t, tk_szDecimals t with
  | None, None, None => true
  | _, _, _ => false
  end.

(** [not ticker], for the value of [ticker_map.get(symbol)]. *)
Definition not_ticker (t : option Ticker) : bool :=
  match t with
  | None => true
  | Some t => ticker_is_empty t
  end.

(** [not x] for an optional number: [None] or zero. *)
Definition not_num (x : option Q) : bool :=
  match x with
  | None => true
  | Some q => negb (truthy q)
  end.

(** [a or b] on optional numbers. *)
Definition or_num (a b : option Q) : option Q :=
  if not_num a then b else a.


(** The arguments of one call of the SDK's [Exchange.order]. *)
Record OrderReq : Type := {
  o_coin : string;
  o_is_buy : bool;
  o_sz : Q;
  o_limit_px : Q;
  o_tif : string;
  o_reduce_only : bool
}.

(** The client as the cycle sees it: what its two reads return, and
    whether a signing wallet (hence an [Exchange]) is configured. *)
Record HyperliquidClient : Type := {
  get_positions : result (list Position);
  get_tickers : result (gmap string Ticker);
  has_exchange : bool
}.

Definition _require_exchange (self : HyperliquidClient) : result unit :=
  if has_exchange self then Ok tt
  else Raise (ValueError "HYPERLIQUID_PRIVATE_KEY must be configured to submit orders").

(** One entry of the summary [close_positions] returns. *)
Inductive CloseStatus : Type :=
  | Skipped
  | DryRun
  | Submitted (response : string)
  | Error (error : exn).

Record CloseEntry : Type := {
  ce_symbol : string;
  ce_side : string;
  ce_size : Q;
  ce_limit_price : option Q;
  ce_status : CloseStatus
}.

Section Exchange.

(** The SDK's [Exchange.order] is outside the package: a transition on the
    exchange's state that answers or raises. *)
Context {X : Type}.
Variable sdk_order : X -> OrderReq -> X * result string.

(** State threaded through the effectful code: the exchange and the
    requests submitted to it so far, oldest first. *)
Record World : Type := {
  exch : X;
  submitted : list OrderReq
}.

Definition submit (w : World) (req : OrderReq) : World * result string :=
  let '(x', r) := sdk_order (exch w) req in
  ({| exch := x'; submitted := submitted w ++ [req] |}, r).

Definition place_order (self : HyperliquidClient) (w : World)
    (symbol action : string) (quantity : Q) (order_type : string)
    (limit_price : option Q) (tif : string) (reduce_only : bool)
    : World * result string :=
  let order_type := Str.upper order_type in
  let coin := _symbol_to_coin symbol in
  let is_buy := String.eqb (Str.upper action) "BUY" in
  if negb (String.eqb order_type "LMT" || String.eqb order_type "LIMIT") then
    (w, Raise (ValueError ("Unsupported order type '" ++ order_type
                           ++ "' for Hyperliquid exchange API")))
  else
    match limit_price with
    | None => (w, Raise (ValueError "limit_price is required for limit orders"))
    | Some limit_price =>
        match _require_exchange self with
        | Raise e => (w, Raise e)
        | Ok _ =>
            match _normalize_tif tif with
            | Raise e => (w, Raise e)
            | Ok t =>
                submit w {| o_coin := coin; o_is_buy := is_buy; o_sz := quantity;
                            o_limit_px := limit_price; o_tif := t;
                            o_reduce_only := reduce_only |}
            end
        end
    end.

(** The body of the loop of [close_positions] for one position. *)
Definition close_one (dry_run : bool) (slippage : Q)
    (tickers : gmap string Ticker) (acc : World * list CloseEntry)
    (pos : Position) : World * list CloseEntry :=
  let '(w, orders_summary) := acc in
  let qty := pos_szi pos in
  if Qeq_bool qty 0 then (w, orders_summary) else
  let symbol := pos_symbol pos in
  let ticker := tickers !! symbol in
  let mid_price := if not_ticker ticker then None else ticker ≫= tk_price in
  let is_buy := Qltb qty 0 in
  let side := (if is_buy then "BUY" else "SELL")%string in
  let skipped :=
    {| ce_symbol := symbol; ce_side := side; ce_size := Qabs qty;
       ce_limit_price := None; ce_status := Skipped |} in
  match mid_price with
  | None => (w, orders_summary ++ [skipped])
  | Some mid_price =>
      if negb (truthy mid_price) then (w, orders_summary ++ [skipped]) else
      let limit_price := mid_price * (if is_buy then 1 + slippage else 1 - slippage) in
      let order_payload status :=
        {| ce_symbol := symbol; ce_side := side; ce_size := Qabs qty;
           ce_limit_price := Some limit_price; ce_status := status |} in
      if dry_run then (w, orders_summary ++ [order_payload DryRun])
      else
        let coin := _symbol_to_coin symbol in
        let '(w', r) := submit w {| o_coin := coin; o_is_buy := is_buy;
                                     o_sz := Qabs qty; o_limit_px := limit_price;
                                     o_tif := "Ioc"; o_reduce_only := true |} in
        match r with
        | Ok response => (w', orders_summary ++ [order_payload (Submitted response)])
        | Raise exc => (w', orders_summary ++ [order_payload (Error exc)])
        end
  end.

Definition close_positions (self : HyperliquidClient) (w : World)
    (dry_run : bool) (slippage : Q) : World * result (list CloseEntry) :=
  match get_positions self with
  | Raise e => (w, Raise e)
  | Ok all_positions =>
      let positions :=
        List.filter (fun pos => Qltb 0 (Qabs (pos_szi pos))) all_positions in
      match positions with
      | [] => (w, Ok [])
      | _ =>
          match get_tickers self with
          | Raise e => (w, Raise e)
          | Ok tickers =>
              match (if dry_run then Ok tt else _require_exchange self) with
              | Raise e => (w, Raise e)
              | Ok _ =>
                  let '(w', orders_summary) :=
                    fold_left (close_one dry_run slippage tickers) positions (w, []) in
                  (w', Ok orders_summary)
              end
          end
      end
  end.

End Exchange.

(** ** market_maker.py: snapshots, analysis and the cycle *)

Definition COINGECKO_ID_MAP : list (string * string) :=
  [("BTC-PERP", "bitcoin"); ("ETH-PERP", "ethereum"); ("SOL-PERP", "solana");
   ("ARB-PERP", "arbitrum"); ("AVAX-PERP", "avalanche-2"); ("OP-PERP", "optimism")]%string.

Fixpoint assoc_get (key : string) (m : list (string * string)) : option string :=
  match m with
  | [] => None
  | (k, v) :: m' => if String.eqb k key then Some v else assoc_get key m'
  end.

(** What the one request of [fetch_24h_changes] does: it raises a
    [requests.RequestException] (from [get] or [raise_for_status]), or it
    answers, and [response.json()] then decodes the body or raises.  The
    decoded body maps a Coingecko id to its ["usd_24h_change"], [None]
    when that key is absent or null. *)
Inductive HttpOutcome : Type :=
  | HttpRaises (msg : string)
  | HttpAnswers (json : result (gmap string (option Q))).

Definition fetch_24h_changes (coingecko : HttpOutcome) (symbols : list string)
    : result (gmap string Q) :=
  let ids : gset string :=
    list_to_set (omap (fun symbol => assoc_get symbol COINGECKO_ID_MAP) symbols) in
  if decide (ids = ∅) then Ok ∅ else
  match coingecko with
  | HttpRaises _ => Ok ∅
  | HttpAnswers (Raise e) => Raise e
  | HttpAnswers (Ok data) =>
      Ok (fold_left
            (fun (output : gmap string Q) '(symbol, cg_id) =>
               if bool_decide (symbol ∈ symbols) then
                 match mjoin (data !! cg_id) with
                 | Some change => <[symbol := change]> output
                 | None => output
                 end
               else output)
            COINGECKO_ID_MAP ∅)
  end.

Definition _build_inventory_map (positions : list Position) : gmap string Q :=
  fold_left
    (fun (inventory : gmap string Q) pos =>
       let symbol :=
         if Str.nonempty (pos_symbol pos) then pos_symbol pos
         else if Str.nonempty (pos_coin pos) then (pos_coin pos ++ "-PERP")%string
         else pos_symbol pos in
       if Str.nonempty symbol then <[symbol := pos_szi pos]> inventory
       else inventory)
    positions ∅.

(** The body of the loop of [_build_snapshots] for one configured symbol. *)
Definition snapshot_step (ticker_map : gmap string Ticker)
    (inventory_map changes : gmap string Q)
    (snapshots : list SymbolSnapshot) (sym : string) : list SymbolSnapshot :=
  let ticker := ticker_map !! sym in
  if not_ticker ticker then snapshots else
  let price := or_num (ticker ≫= tk_price) (ticker ≫= tk_mid) in
  if not_num price then snapshots else
  match price with
  | None => snapshots
  | Some price =>
      let sz := default 5%Z (ticker ≫= tk_szDecimals) in
      snapshots ++
        [{| symbol := sym;
            mid_price := price;
            sz_decimals := sz;
            inventory := default 0 (inventory_map !! sym);
            change_24h := changes !! sym;
            notional_liquidity := None |}]
  end.

(** What the loop makes of one configured symbol, stated on its own: the
    snapshot, or [None] when the symbol is passed over. *)
Definition snapshot_for (ticker_map : gmap string Ticker)
    (inventory_map changes : gmap string Q) (sym : string) : option SymbolSnapshot :=
  ticker ← ticker_map !! sym;
  price ← or_num (tk_price ticker) (tk_mid ticker);
  if truthy price then
    Some {| symbol := sym;
            mid_price := price;
            sz_decimals := default 5%Z (tk_szDecimals ticker);
            inventory := default 0 (inventory_map !! sym);
            change_24h := changes !! sym;
            notional_liquidity := None |}
  else None.

Definition _build_snapshots (settings : StrategySettings) (coingecko : HttpOutcome)
    (ticker_map : gmap string Ticker) (inventory_map : gmap string Q)
    : result (list SymbolSnapshot) :=
  changes ← fetch_24h_changes coingecko (primary_markets settings);
  Ok (fold_left (snapshot_step ticker_map inventory_map changes)
                (primary_markets settings) []).

(** The part of an analysis the cycle reads. *)
Record Recommendations : Type := {
  minSpread : Q;
  maxSpread : Q;
  maxPosition : Q
}.

Record Analysis : Type := {
  parameters : Params;
  strategyRecommendations : Recommendations
}.

(** An analysis provider is anything with a [fetch_analysis] method. *)
Class AnalysisProvider (P : Type) : Type :=
  fetch_analysis : P -> list SymbolSnapshot -> result Analysis.

Record MarketMaker (P : Type) : Type := {
  client : HyperliquidClient;
  analysis_provider : P;
  fallback_provider : option P;
  settings : StrategySettings
}.
Arguments client {P} _.
Arguments analysis_provider {P} _.
Arguments fallback_provider {P} _.
Arguments settings {P} _.

(** Which provider a [fetch_analysis] call went to, and with what. *)
Inductive Slot : Type := Primary | Fallback.
Definition ProviderCall : Type := Slot * list SymbolSnapshot.

(** [_fetch_analysis], with the calls it makes, in order. *)
Definition _fetch_analysis {P : Type} `{AnalysisProvider P} (self : MarketMaker P)
    (snapshots : list SymbolSnapshot) : list ProviderCall * result Analysis :=
  match fetch_analysis (analysis_provider self) snapshots with
  | Ok analysis => ([(Primary, snapshots)], Ok analysis)
  | Raise exc =>
      match fallback_provider self with
      | None => ([(Primary, snapshots)], Raise exc)
      | Some fallback =>
          ([(Primary, snapshots); (Fallback, snapshots)],
           fetch_analysis fallback snapshots)
      end
  end.

Record Counts : Type := {
  orders_placed : Z;
  orders_skipped : Z
}.

Definition count_skipped (c : Counts) : Counts :=
  {| orders_placed := orders_placed c; orders_skipped := orders_skipped c + 1 |}.

Definition count_placed (c : Counts) : Counts :=
  {| orders_placed := orders_placed c + 2; orders_skipped := orders_skipped c |}.

(** The two rounded sizes the cycle computes for one symbol. *)
Definition quote_sizes (settings : StrategySettings) (mid_price max_position
    current_inventory : Q) (sz_decimals : Z) : result (Q * Q) :=
  bid_qty_raw ← calculate_position_size mid_price max_position current_inventory
                  settings Bid;
  ask_qty_raw ← calculate_position_size mid_price max_position current_inventory
                  settings Ask;
  Ok (round_size bid_qty_raw sz_decimals, round_size ask_qty_raw sz_decimals).

(** What the loop of [run_cycle] decides for one snapshot before it touches
    the exchange: skip the symbol, or quote it at these prices and sizes. *)
Record Quote : Type := {
  bid_price : Q;
  bid_qty : Q;
  ask_price : Q;
  ask_qty : Q
}.

Inductive QuoteDecision : Type :=
  | SkipSymbol
  | PlaceQuote (q : Quote).

Definition quote_symbol (settings : StrategySettings) (analysis : Analysis)
    (ticker_map : gmap string Ticker) (snapshot : SymbolSnapshot)
    : result QuoteDecision :=
  let params := parameters analysis in
  let recommendations := strategyRecommendations analysis in
  let max_position := maxPosition recommendations in
  let min_spread := minSpread recommendations in
  let max_spread := maxSpread recommendations in
  let ticker := ticker_map !! symbol snapshot in
  if not_ticker ticker then Ok SkipSymbol else
  match or_num (ticker ≫= tk_price) (ticker ≫= tk_mid) with
  | None => Ok SkipSymbol
  | Some mid_price =>
      if negb (truthy mid_price) || Qle_bool mid_price 0 then Ok SkipSymbol else
      let sz_decimals := default 5%Z (ticker ≫= tk_szDecimals) in
      let current_inventory := inventory snapshot in
      let '(bid_spread, ask_spread) :=
        calculate_spreads params current_inventory max_position in
      let bid_spread := clamp_spread min_spread max_spread bid_spread in
      let ask_spread := clamp_spread min_spread max_spread ask_spread in
      let bid_price := round_price (mid_price * (1 - bid_spread)) in
      let ask_price := round_price (mid_price * (1 + ask_spread)) in
      '(bid_qty, ask_qty) ← quote_sizes settings mid_price max_position
                              current_inventory sz_decimals;
      if Qeq_bool bid_qty 0 || Qeq_bool ask_qty 0 then Ok SkipSymbol
      else Ok (PlaceQuote {| bid_price := bid_price; bid_qty := bid_qty;
                             ask_price := ask_price; ask_qty := ask_qty |})
  end.

Section Cycle.

Context {X : Type}.
Variable sdk_order : X -> OrderReq -> X * result string.

Local Abbreviation World := (@World X).

(** The body of the loop of [run_cycle] for one snapshot. *)
Definition cycle_step {P : Type} (self : MarketMaker P) (dry_run : bool)
    (analysis : Analysis) (ticker_map : gmap string Ticker)
    (w : World) (c : Counts) (snapshot : SymbolSnapshot) : World * result Counts :=
  match quote_symbol (settings self) analysis ticker_map snapshot with
  | Raise e => (w, Raise e)
  | Ok SkipSymbol => (w, Ok (count_skipped c))
  | Ok (PlaceQuote q) =>
      if dry_run then (w, Ok (count_placed c))
      else
        match place_order sdk_order (client self) w (symbol snapshot) "BUY"
                          (bid_qty q) "LMT" (Some (bid_price q)) "GTC" false with
        | (w1, Raise _) => (w1, Ok c)
        | (w1, Ok _) =>
            match place_order sdk_order (client self) w1 (symbol snapshot) "SELL"
                              (ask_qty q) "LMT" (Some (ask_price q)) "GTC" false with
            | (w2, Raise _) => (w2, Ok c)
            | (w2, Ok _) => (w2, Ok (count_placed c))
            end
        end
  end.

Fixpoint cycle_loop {P : Type} (self : MarketMaker P) (dry_run : bool)
    (analysis : Analysis) (ticker_map : gmap string Ticker)
    (snapshots : list SymbolSnapshot) (w : World) (c : Counts)
    : World * result Counts :=
  match snapshots with
  | [] => (w, Ok c)
  | snapshot :: rest =>
      match cycle_step self dry_run analysis ticker_map w c snapshot with
      | (w', Ok c') => cycle_loop self dry_run analysis ticker_map rest w' c'
      | (w', Raise e) => (w', Raise e)
      end
  end.

(** [run_cycle]: the final world, the provider calls made, and the counts
    of the closing log line (or the exception that ended the cycle). *)
Definition run_cycle {P : Type} `{AnalysisProvider P} (self : MarketMaker P)
    (coingecko : HttpOutcome) (execute : bool) (w : World)
    : World * list ProviderCall * result Counts :=
  let dry_run := negb execute in
  match get_positions (client self) with
  | Raise e => (w, [], Raise e)
  | Ok positions =>
      let inventory_map := _build_inventory_map positions in
      match get_tickers (client self) with
      | Raise e => (w, [], Raise e)
      | Ok ticker_map =>
          match _build_snapshots (settings self) coingecko ticker_map inventory_map with
          | Raise e => (w, [], Raise e)
          | Ok [] =>
              (w, [], Raise (RuntimeError
                 "No market snapshots available; check tickers or config"))
          | Ok snapshots =>
              match _fetch_analysis self snapshots with
              | (calls, Raise e) => (w, calls, Raise e)
              | (calls, Ok analysis) =>
                  let '(w', r) :=
                    cycle_loop self dry_run analysis ticker_map snapshots w
                      {| orders_placed := 0; orders_skipped := 0 |} in
                  (w', calls, r)
              end
          end
      end
  end.

End Cycle.

(** ** agent_market.py *)

Record AgentMarketSettings : Type := {
  api_key : string;
  base_url : string;
  poll_interval : Q;
  max_polls : Z
}.

Record AgentMarketClient : Type := {
  am_settings : AgentMarketSettings
}.

(** [AgentMarketClient(settings)], where [env] is what
    [AgentMarketSettings()] reads from the environment. *)
Definition AgentMarketClient_init (env : AgentMarketSettings)
    (settings : option AgentMarketSettings) : result AgentMarketClient :=
  let settings := default env settings in
  if negb (Str.nonempty (api_key settings))
  then Raise (ValueError "AGENT_MARKET_API_KEY is required")
  else Ok {| am_settings := settings |}.

(** One entry of the transcript [fetch_chat_messages] returns; each key is
    read with [dict.get] and may be absent, and a timestamp that is present
    is a string. *)
Record ChatMessage : Type := {
  sender : option string;
  message : option string;
  timestamp : option string
}.

(** [msg.get("sender") == "provider" and msg.get("message")] *)
Definition is_provider_message (msg : ChatMessage) : bool :=
  match sender msg, message msg with
  | Some s, Some m => String.eqb s "provider" && Str.nonempty m
  | _, _ => false
  end.

(** [msg.get("timestamp", "")] *)
Definition timestamp_key (msg : ChatMessage) : string :=
  default ""%string (timestamp msg).

(** [list.sort(key=..., reverse=True)]: descending and stable, elements
    with equal keys keep their order. *)
Fixpoint insert_desc (x : ChatMessage) (l : list ChatMessage) : list ChatMessage :=
  match l with
  | [] => [x]
  | y :: l' =>
      if String.ltb (timestamp_key x) (timestamp_key y)
      then y :: insert_desc x l'
      else x :: l
  end.

Definition sort_desc (l : list ChatMessage) : list ChatMessage :=
  fold_right insert_desc [] l.

(** No message of [l] is later than [first]. *)
Definition latest (first : ChatMessage) (l : list ChatMessage) : Prop :=
  Forall (fun m => String.ltb (timestamp_key first) (timestamp_key m) = false) l.

(** What the polling loop does, as seen from outside. *)
Inductive PollEvent : Type :=
  | Sleep (seconds : Q)
  | Fetch (attempt : nat).

Definition is_RequestException (e : exn) : bool :=
  match e with RequestException _ => true | _ => false end.

(** The loop of [poll_provider_message] from attempt [attempt] on, with
    [remaining] attempts left; [chat k] is what the [k]-th call of
    [fetch_chat_messages] does. *)
Fixpoint poll_loop (self : AgentMarketClient) (chat : nat -> result (list ChatMessage))
    (remaining attempt : nat) : list PollEvent * result (option string) :=
  match remaining with
  | O => ([], Ok None)
  | S remaining' =>
      let sleep :=
        match attempt with
        | O => []
        | S _ => [Sleep (poll_interval (am_settings self))]
        end in
      let continue :=
        let '(evs, r) := poll_loop self chat remaining' (S attempt) in
        (sleep ++ Fetch attempt :: evs, r) in
      match chat attempt with
      | Raise exc =>
          if is_RequestException exc then continue
          else (sleep ++ [Fetch attempt], Raise exc)
      | Ok messages =>
          let provider_messages := List.filter is_provider_message messages in
          match provider_messages with
          | [] => continue
          | _ :: _ =>
              match sort_desc provider_messages with
              | first :: _ => (sleep ++ [Fetch attempt], Ok (message first))
              | [] => (sleep ++ [Fetch attempt], Raise (OtherException "IndexError"))
              end
          end
      end
  end.

Definition poll_provider_message (self : AgentMarketClient)
    (chat : nat -> result (list ChatMessage)) : list PollEvent * result (option string) :=
  poll_loop self chat (Z.to_nat (max_polls (am_settings self))) 0.

(** An attempt that brings no qualifying message: the fetch raised a
    [requests.RequestException], or the transcript it returned holds no
    message of the provider with content. *)
Definition quiet (outcome : result (list ChatMessage)) : Prop :=
  match outcome with
  | Raise exc => is_RequestException exc = true
  | Ok messages => List.filter is_provider_message messages = []
  end.

(** What [n] attempts look like from outside: a fetch, then a sleep of the
    interval before each further fetch. *)
Definition attempt_events (interval : Q) (attempt : nat) : list PollEvent :=
  match attempt with
  | O => [Fetch attempt]
  | S _ => [Sleep interval; Fetch attempt]
  end.

Definition expected_trace (interval : Q) (n : nat) : list PollEvent :=
  flat_map (attempt_events interval) (seq 0 n).

(** Text processing of [_parse_analysis]; the raw message is handled
    character by character and is a list of characters here. *)
Module Text.

Definition text : Type := list ascii.

Definition of_string (s : string) : text := list_ascii_of_string s.

Definition is_space (c : ascii) : bool := Str.is_space c.

Fixpoint lstrip (s : text) : text :=
  match s with
  | c :: s' => if is_space c then lstrip s' else s
  | [] => []
  end.

Definition rstrip (s : text) : text := rev (lstrip (rev s)).

(** [s.strip()] *)
Definition strip (s : text) : text := rstrip (lstrip s).

Fixpoint starts_with (p s : text) : bool :=
  match p, s with
  | [], _ => true
  | a :: p', b :: s' => Ascii.eqb a b && starts_with p' s'
  | _ :: _, [] => false
  end.

(** [p in s] *)
Fixpoint contains (p s : text) : bool :=
  starts_with p s ||
  match s with
  | [] => false
  | _ :: s' => contains p s'
  end.

Definition LF : ascii := ascii_of_nat 10.
Definition CR : ascii := ascii_of_nat 13.

(** A line boundary of [str.splitlines]. *)
Definition is_linebreak (c : ascii) : bool :=
  let n := nat_of_ascii c in
  ((10 <=? n)%nat && (n <=? 13)%nat) || ((28 <=? n)%nat && (n <=? 30)%nat).

Fixpoint splitlines_from (cur : text) (s : text) : list text :=
  match s with
  | [] => match cur with [] => [] | _ => [cur] end
  | c :: s' =>
      if Ascii.eqb c CR then
        match s' with
        | d :: s'' =>
            if Ascii.eqb d LF then cur :: splitlines_from [] s''
            else cur :: splitlines_from [] s'
        | [] => cur :: splitlines_from [] s'
        end
      else if is_linebreak c then cur :: splitlines_from [] s'
      else splitlines_from (cur ++ [c]) s'
  end.

(** [s.splitlines()] *)
Definition splitlines (s : text) : list text := splitlines_from [] s.

(** ["\n".join(lines)] *)
Fixpoint join_lines (lines : list text) : text :=
  match lines with
  | [] => []
  | [l] => l
  | l :: rest => l ++ LF :: join_lines rest
  end.

(** [s.find(c)] for a one-character [c]; [None] is [-1]. *)
Fixpoint find (c : ascii) (s : text) : option nat :=
  match s with
  | [] => None
  | d :: s' => if Ascii.eqb d c then Some O else S <$> find c s'
  end.

(** [s.rfind(c)] for a one-character [c]; [None] is [-1]. *)
Fixpoint rfind (c : ascii) (s : text) : option nat :=
  match s with
  | [] => None
  | d :: s' =>
      match rfind c s' with
      | Some i => Some (S i)
      | None => if Ascii.eqb d c then Some O else None
      end
  end.

(** [s[start : stop]] for indices within range *)
Definition slice (start stop : nat) (s : text) : text :=
  drop start (take stop s).

End Text.

Definition FENCE : Text.text := Text.of_string "```".
Definition LBRACE : ascii := "{"%char.
Definition RBRACE : ascii := "}"%char.

Definition required_keys : list string :=
  ["marketAnalysis"; "parameters"; "strategyRecommendations"; "riskAssessment";
   "reasoning"]%string.

(** The message after [strip()] and, when it holds a fence, without the
    lines that hold one. *)
Definition clean_message (raw_message : Text.text) : Text.text :=
  let cleaned := Text.strip raw_message in
  if Text.contains FENCE cleaned
  then Text.join_lines
         (List.filter (fun line => negb (Text.contains FENCE line))
                      (Text.splitlines cleaned))
  else cleaned.

(** The slice from the first opening brace to the last closing brace, or
    [None] when either is missing. *)
Definition brace_slice (cleaned : Text.text) : option Text.text :=
  match Text.find LBRACE cleaned, Text.rfind RBRACE cleaned with
  | Some start, Some stop => Some (Text.slice start (stop + 1) cleaned)
  | _, _ => None
  end.

(** The text [_parse_analysis] hands to [json.loads], or [None] when a
    brace is missing. *)
Definition json_payload (raw_message : Text.text) : option Text.text :=
  brace_slice (clean_message raw_message).

Section Parse.

(** [json.loads] is outside the package.  Its argument here starts with an
    opening brace, so what it decodes is an object: a map from keys to
    values. [None] is a [JSONDecodeError]. *)
Context {JsonValue : Type}.
Variable json_loads : Text.text -> option (gmap string JsonValue).

Fixpoint check_required (keys : list string) (analysis : gmap string JsonValue)
    : result (gmap string JsonValue) :=
  match keys with
  | [] => Ok analysis
  | key :: keys' =>
      match analysis !! key with
      | None => Raise (AgentMarketError ("agent.market response missing '" ++ key ++ "'"))
      | Some _ => check_required keys' analysis
      end
  end.

Definition _parse_analysis (raw_message : Text.text) : result (gmap string JsonValue) :=
  match json_payload raw_message with
  | None => Raise (AgentMarketError "Provider response did not include JSON payload")
  | Some payload =>
      match json_loads payload with
      | None => Raise JSONDecodeError
      | Some analysis => check_required required_keys analysis
      end
  end.

End Parse.

Record AgentMarketAnalysisProvider : Type := {
  am_client : AgentMarketClient
}.

(** ** market_maker.py: wiring *)

Definition build_analysis_provider (env : AgentMarketSettings) (mode : string)
    : result (AgentMarketAnalysisProvider * option AgentMarketAnalysisProvider) :=
  let mode := Str.lower mode in
  if negb (String.eqb mode "auto" || String.eqb mode "agent") then
    Raise (ValueError ("Invalid analysis provider mode: " ++ mode ++
      ". The HTTP /analysis fallback has been removed; configure agent.market."))
  else
    match AgentMarketClient_init env (Some env) with
    | Ok agent_client => Ok ({| am_client := agent_client |}, None)
    | Raise (ValueError _) =>
        Raise (ValueError
          "AGENT_MARKET_API_KEY must be set to run the Avellaneda analysis now that the HTTP fallback is gone.")
    | Raise e => Raise e
    end.

(** The part of [main] that wires the maker: the provider pair from
    [build_analysis_provider] goes to the [MarketMaker] constructor. *)
Definition main_maker (env : AgentMarketSettings) (hl_client : HyperliquidClient)
    (strategy : StrategySettings) (analysis_provider_arg : string)
    : result (MarketMaker AgentMarketAnalysisProvider) :=
  '(provider, fallback) ← build_analysis_provider env analysis_provider_arg;
  Ok {| client := hl_client;
        analysis_provider := provider;
        fallback_provider := fallback;
        settings := strategy |}.

(** ** Further definitions *)

(** How [n] passes of the loop of [run_cycle] can change the world and the
    counts: some requests are added, at most two a pass, all of them plain
    good-till-cancelled orders; no count goes down; a pass adds at most one
    skipped symbol or two placed orders; a dry run leaves the world as it
    was and counts every pass; a live run counts as placed no more than it
    sent, and without a signing wallet sends and places nothing. *)
Definition cycle_effect {X P : Type} (self : MarketMaker P) (dry_run : bool)
    (n : nat) (w : @World X) (c : Counts) (w' : @World X) (c' : Counts) : Prop :=
  exists new : list OrderReq,
    submitted w' = submitted w ++ new
    /\ (length new <= 2 * n)%nat
    /\ Forall (fun req => o_reduce_only req = false /\ o_tif req = "Gtc"%string) new
    /\ (orders_skipped c <= orders_skipped c')%Z
    /\ (orders_placed c <= orders_placed c')%Z
    /\ (orders_placed c' + 2 * orders_skipped c'
        <= orders_placed c + 2 * orders_skipped c + 2 * Z.of_nat n)%Z
    /\ (dry_run = true ->
        w' = w
        /\ (orders_placed c' + 2 * orders_skipped c'
            = orders_placed c + 2 * orders_skipped c + 2 * Z.of_nat n)%Z)
    /\ (dry_run = false ->
        (orders_placed c' - orders_placed c <= Z.of_nat (length new))%Z)
    /\ (dry_run = false -> has_exchange (client self) = false ->
        w' = w /\ orders_placed c' = orders_placed c).

(** [s.split(sep)] for a one-character separator: never empty, the last
    part is what follows the last separator. *)
Fixpoint split_on (sep : ascii) (s : string) : list string :=
  match s with
  | EmptyString => [EmptyString]
  | String c s' =>
      if Ascii.eqb c sep then EmptyString :: split_on sep s'
      else match split_on sep s' with
           | part :: parts => String c part :: parts
           | [] => [String c EmptyString]
           end
  end.

(** Every character of the string passes the test. *)
Fixpoint all_chars (P : ascii -> bool) (s : string) : bool :=
  match s with
  | EmptyString => true
  | String c s' => P c && all_chars P s'
  end.

(** *** hyperliquid_api.py: names *)

Definition _coin_to_symbol (coin : string) : string :=
  let base := List.last (split_on ":" coin) EmptyString in
  (base ++ "-PERP")%string.

Definition _normalize_network (value : string) : result string :=
  let network :=
    Str.lower (Str.strip (if Str.nonempty value then value else "mainnet")) in
  if String.eqb network "mainnet" || String.eqb network "testnet"
  then Ok network
  else Raise (ValueError ("Unsupported Hyperliquid network '" ++ value
                          ++ "' (expected mainnet or testnet)")).

(** *** market_maker.py: the configured markets *)

(** [_parse_markets]; [None] is an unset variable. *)
Definition _parse_markets (value : option string) : list string :=
  match value with
  | None => DEFAULT_MARKETS
  | Some v =>
      if Str.nonempty v then
        map (fun part => Str.upper (Str.strip part))
            (List.filter (fun part => Str.nonempty (Str.strip part)) (split_on "," v))
      else DEFAULT_MARKETS
  end.

(** *** market_maker.py: the inventory map, stated by lookup *)

(** The key [_build_inventory_map] files a position under: its symbol, or
    its coin with the suffix when it has no symbol, or none. *)
Definition position_key (pos : Position) : option string :=
  if Str.nonempty (pos_symbol pos) then Some (pos_symbol pos)
  else if Str.nonempty (pos_coin pos) then Some (pos_coin pos ++ "-PERP")%string
  else None.

(** The quantity of the last position filed under [sym]. *)
Fixpoint last_quantity (positions : list Position) (sym : string) : option Q :=
  match positions with
  | [] => None
  | pos :: rest =>
      match last_quantity rest sym with
      | Some q => Some q
      | None =>
          if bool_decide (position_key pos = Some sym) then Some (pos_szi pos) else None
      end
  end.

(** *** agent_market.py: one acquisition *)

(** What one acquisition does on the network, in order. *)
Inductive AgentEvent : Type :=
  | CreateInstance (background : string)
  | Poll (events : list PollEvent).

Section AgentProvider.

(** Outside the package, or left abstract: [json.loads]; the text of the
    background prompt, a function of the snapshots; what [create_instance]
    returns for a background, of which only the ["id"] is read ([None]
    when the key is absent); the transcript of an instance at each fetch. *)
Context {JsonValue : Type}.
Variable json_loads : Text.text -> option (gmap string JsonValue).
Variable _build_background_prompt : list SymbolSnapshot -> string.
Variable create_instance : string -> result (option string).
Variable fetch_chat_messages : string -> nat -> result (list ChatMessage).

Definition agent_fetch_analysis (self : AgentMarketAnalysisProvider)
    (snapshots : list SymbolSnapshot)
    : list AgentEvent * result (gmap string JsonValue) :=
  match snapshots with
  | [] => ([], Raise (AgentMarketError "No symbol snapshots available for analysis"))
  | _ :: _ =>
      let background := _build_background_prompt snapshots in
      match create_instance background with
      | Raise e => ([CreateInstance background], Raise e)
      | Ok instance_id =>
          match instance_id with
          | Some (String c id) =>
              let '(events, r) :=
                poll_provider_message (am_client self)
                  (fetch_chat_messages (String c id)) in
              let trace := [CreateInstance background; Poll events] in
              match r with
              | Raise e => (trace, Raise e)
              | Ok (Some (String m ms)) =>
                  (trace, _parse_analysis json_loads (Text.of_string (String m ms)))
              | Ok _ =>
                  (trace, Raise (AgentMarketError
                     "Timed out waiting for agent.market provider response"))
              end
          | _ =>
              ([CreateInstance background],
               Raise (AgentMarketError "agent.market did not return an instance id"))
          end
      end
  end.

End AgentProvider.

(** ** Concrete inputs used in the examples below *)

Module Ex.

(** A provider given by its [fetch_analysis]. *)
Definition FnProvider : Type := list SymbolSnapshot -> result Analysis.

#[global] Instance FnProvider_provider : AnalysisProvider FnProvider :=
  fun p snapshots => p snapshots.

Definition params : Params :=
  {| gamma := 2 # 10; sigma := 3 # 10; kappa := 15 # 10; timeHorizon := 60;
     inventoryRiskWeight := Some (2 # 10) |}.

Definition recommendations : Recommendations :=
  {| minSpread := 1 # 1000; maxSpread := 5 # 100; maxPosition := 5 |}.

Definition analysis : Analysis :=
  {| parameters := params; strategyRecommendations := recommendations |}.

Definition snapshot (sym : string) (mid inv : Q) : SymbolSnapshot :=
  {| symbol := sym; mid_price := mid; sz_decimals := 5; inventory := inv;
     change_24h := None; notional_liquidity := None |}.

Definition ticker (p : Q) (szd : Z) : Ticker :=
  {| tk_price := Some p; tk_mid := None; tk_szDecimals := Some szd |}.

(** The settings with the defaults of the source: 997.5 of capital, a
    minimum order value of 10, the three default markets. *)
Definition default_settings : StrategySettings :=
  mkStrategySettings (9975 # 10) 10 [].

Definition hl_client (positions : list Position) (tickers : gmap string Ticker)
    (signing : bool) : HyperliquidClient :=
  {| get_positions := Ok positions; get_tickers := Ok tickers;
     has_exchange := signing |}.

Definition maker (primary : FnProvider) (fallback : option FnProvider)
    (c : HyperliquidClient) : MarketMaker FnProvider :=
  {| client := c; analysis_provider := primary; fallback_provider := fallback;
     settings := default_settings |}.

(** An exchange without state that rejects, resp. accepts, every order. *)
Definition rejecting : unit -> OrderReq -> unit * result string :=
  fun _ _ => (tt, Raise (OtherException "rejected")).

Definition accepting : unit -> OrderReq -> unit * result string :=
  fun _ _ => (tt, Ok "ok"%string).

Definition world0 : @World unit := {| exch := tt; submitted := [] |}.

(** An exchange that accepts the first order it receives and rejects every
    later one; its state counts the orders received. *)
Definition first_only : nat -> OrderReq -> nat * result string :=
  fun n _ =>
    (S n, match n with
          | O => Ok "ok"%string
          | S _ => Raise (OtherException "rejected")
          end).

Definition fresh : @World nat := {| exch := O; submitted := [] |}.

(** One market quoted at 100, no position held, a signing wallet, and a
    provider that answers with [analysis]. *)
Definition live_maker : MarketMaker FnProvider :=
  maker (fun _ => Ok analysis) None
        (hl_client [] {[ "BTC-PERP"%string := ticker 100 5 ]} true).

(** A market at 8 with whole-number sizes, 0.6 held long, and a position
    bound of 2. *)
Definition small_analysis : Analysis :=
  {| parameters := params;
     strategyRecommendations :=
       {| minSpread := 1 # 1000; maxSpread := 5 # 100; maxPosition := 2 |} |}.

Definition small_tickers : gmap string Ticker :=
  {[ "SOL-PERP"%string := ticker 8 0 ]}.


(** A short position of 2.5 in a market quoted at 100. *)
Definition short_position : Position :=
  {| pos_coin := "ETH"; pos_symbol := "ETH-PERP"; pos_szi := - (25 # 10) |}.

Definition short_client : HyperliquidClient :=
  hl_client [short_position] {[ "ETH-PERP"%string := ticker 100 4 ]} true.

(** One configured market whose ticker carries a negative price. *)
Definition negative_tickers : gmap string Ticker :=
  {[ "BTC-PERP"%string := ticker (- (1)) 5 ]}.

Definition btc_only : StrategySettings :=
  mkStrategySettings (9975 # 10) 10 ["BTC-PERP"%string].

Definition agent_env (key : string) : AgentMarketSettings :=
  {| api_key := key; base_url := "https://api.agent.market";
     poll_interval := 5; max_polls := 18 |}.

Definition agent_client : AgentMarketClient :=
  {| am_settings := agent_env "secret" |}.

(** A first poll that times out, then a transcript with the request and
    two answers of the provider. *)
Definition transcript : list ChatMessage :=
  [ {| sender := Some "requester"%string; message := Some "background"%string;
       timestamp := Some "2024-05-01T10:00:00"%string |};
    {| sender := Some "provider"%string; message := Some "first answer"%string;
       timestamp := Some "2024-05-01T10:00:05"%string |};
    {| sender := Some "provider"%string; message := Some "second answer"%string;
       timestamp := Some "2024-05-01T10:00:09"%string |} ].

Definition chat : nat -> result (list ChatMessage) :=
  fun k =>
    match k with
    | O => Raise (RequestException "timeout")
    | S O => Ok transcript
    | S (S _) => Ok []
    end.

(** A JSON object with the five required members, one member a line, and
    the same object on one line. *)
Definition DQ : ascii := ascii_of_nat 34.

Definition member (key value : string) : Text.text :=
  Text.of_string "  " ++ DQ :: Text.of_string key ++ DQ :: Text.of_string (": " ++ value).

Definition body_lines : list Text.text :=
  [ Text.of_string "{";
    member "marketAnalysis" "{},";
    member "parameters" "{},";
    member "strategyRecommendations" "{},";
    member "riskAssessment" "{},";
    member "reasoning" "null";
    Text.of_string "}" ].

Definition body : Text.text := Text.join_lines body_lines.

Definition flat_body : Text.text := concat body_lines.

(** The body between fence lines, with prose before and after. *)
Definition fenced : Text.text :=
  (Text.of_string "Here is the analysis:" ++ Text.LF :: Text.of_string "```json")
    ++ Text.LF :: body
    ++ Text.LF :: (Text.of_string "```" ++ Text.LF :: Text.of_string "Let me know.").


(** The object both bodies denote, values left out, and a decoder that
    knows these two texts. *)
Definition decoded : gmap string unit :=
  list_to_map (map (fun key => (key, tt)) required_keys).

Definition decode (payload : Text.text) : option (gmap string unit) :=
  if bool_decide (payload = body) || bool_decide (payload = flat_body)
  then Some decoded else None.

End Ex.

(** * Properties *)

(** ** Analysis acquisition with a fallback *)

Section FetchAnalysis.

Context {P : Type} `{AnalysisProvider P}.

Lemma fetch_analysis_primary_ok (self : MarketMaker P) snapshots a :
  fetch_analysis (analysis_provider self) snapshots = Ok a ->
  _fetch_analysis self snapshots = ([(Primary, snapshots)], Ok a).
Proof. intros Hp. unfold _fetch_analysis. now rewrite Hp. Qed.

End FetchAnalysis.

(** C1 (as the code has it): when the primary provider's [fetch_analysis]
    raises and a fallback is configured, the fallback's [fetch_analysis] is
    called with the identical snapshot list and its outcome is the outcome
    of [_fetch_analysis]; so when the fallback raises too, the error that
    surfaces is the fallback's.  With no fallback the primary failure
    propagates, after the one call. *)
Theorem C1_fetch_analysis_fallback :
  forall (P : Type) (HP : AnalysisProvider P) (self : MarketMaker P)
         (snapshots : list SymbolSnapshot) (e : exn),
    fetch_analysis (analysis_provider self) snapshots = Raise e ->
    (forall fallback, fallback_provider self = Some fallback ->
       _fetch_analysis self snapshots =
         ([(Primary, snapshots); (Fallback, snapshots)],
          fetch_analysis fallback snapshots)
       /\ (forall e', fetch_analysis fallback snapshots = Raise e' ->
             snd (_fetch_analysis self snapshots) = Raise e'))
    /\ (fallback_provider self = None ->
          _fetch_analysis self snapshots = ([(Primary, snapshots)], Raise e)).
Proof.
  intros P HP self snapshots e Hprimary. split.
  - intros fallback Hfb.
    assert (Hrun : _fetch_analysis self snapshots =
                   ([(Primary, snapshots); (Fallback, snapshots)],
                    fetch_analysis fallback snapshots)).
    { unfold _fetch_analysis. rewrite Hprimary, Hfb. reflexivity. }
    split; [exact Hrun |].
    intros e' He'. rewrite Hrun. exact He'.
  - intros Hnone. unfold _fetch_analysis. rewrite Hprimary, Hnone. reflexivity.
Qed.

Lemma C1_fetch_analysis_fallback_witness :
  let snaps := [Ex.snapshot "BTC-PERP" 100 0] in
  let self := Ex.maker (fun _ => Raise (RuntimeError "primary down"))
                       (Some (fun _ => Ok Ex.analysis)) (Ex.hl_client [] ∅ false) in
  _fetch_analysis self snaps =
    ([(Primary, snaps); (Fallback, snaps)], Ok Ex.analysis).
Proof.
  intros snaps self.
  destruct (C1_fetch_analysis_fallback Ex.FnProvider _ self snaps
              (RuntimeError "primary down") eq_refl) as [Hfb _].
  destruct (Hfb (fun _ => Ok Ex.analysis) eq_refl) as [Hrun _].
  exact Hrun.
Defined.

(** C1, counterexample: both providers raise, and what [_fetch_analysis]
    raises is the fallback's exception, not the primary's. *)
Lemma C1_counterexample :
  let snaps := [Ex.snapshot "BTC-PERP" 100 0] in
  let self := Ex.maker (fun _ => Raise (RuntimeError "primary down"))
                       (Some (fun _ => Raise (AgentMarketError "fallback down")))
                       (Ex.hl_client [] ∅ false) in
  snd (_fetch_analysis self snaps) = Raise (AgentMarketError "fallback down")
  /\ snd (_fetch_analysis self snaps) <> Raise (RuntimeError "primary down").
Proof. split; [reflexivity | discriminate]. Qed.

(** ** The quote calculator *)

Lemma Qltb_true (a b : Q) : Qltb a b = true <-> a < b.
Proof.
  unfold Qltb. rewrite negb_true_iff.
  destruct (Qle_bool b a) eqn:E.
  - apply Qle_bool_iff in E. split; [discriminate | intros Hlt; lra].
  - split; [intros _ | reflexivity].
    destruct (Qlt_le_dec a b) as [Hlt | Hle]; [exact Hlt |].
    apply Qle_bool_iff in Hle. congruence.
Qed.

Lemma Qltb_false (a b : Q) : Qltb a b = false <-> b <= a.
Proof.
  unfold Qltb. rewrite negb_false_iff. apply Qle_bool_iff.
Qed.

Lemma py_max_spec (a b : Q) :
  (a < b /\ Py.max a b = b) \/ (b <= a /\ Py.max a b = a).
Proof.
  unfold Py.max. destruct (Qltb a b) eqn:E.
  - left. split; [now apply Qltb_true | reflexivity].
  - right. split; [now apply Qltb_false | reflexivity].
Qed.

Lemma py_min_spec (a b : Q) :
  (b < a /\ Py.min a b = b) \/ (a <= b /\ Py.min a b = a).
Proof.
  unfold Py.min. destruct (Qltb b a) eqn:E.
  - left. split; [now apply Qltb_true | reflexivity].
  - right. split; [now apply Qltb_false | reflexivity].
Qed.

(** Case analysis on every [max] and [min] of the goal. *)
Ltac case_py :=
  repeat match goal with
  | |- context [Py.min ?a ?b] =>
      let E := fresh "Emin" in
      destruct (py_min_spec a b) as [[? E] | [? E]]; rewrite !E; clear E
  | |- context [Py.max ?a ?b] =>
      let E := fresh "Emax" in
      destruct (py_max_spec a b) as [[? E] | [? E]]; rewrite !E; clear E
  end.

(** The clamp is monotone in the spread, whatever the two bounds are. *)
Lemma clamp_spread_mono (lo hi x y : Q) :
  x <= y -> clamp_spread lo hi x <= clamp_spread lo hi y.
Proof. intros Hxy. unfold clamp_spread. case_py; lra. Qed.

(** With bounds in order the clamped spread lies between them. *)
Lemma clamp_spread_bounds (lo hi x : Q) :
  lo <= hi -> lo <= clamp_spread lo hi x /\ clamp_spread lo hi x <= hi.
Proof. intros Hb. unfold clamp_spread. case_py; lra. Qed.

Lemma truthy_pos (x : Q) : 0 < x -> truthy x = true.
Proof.
  intros Hx. unfold truthy. apply negb_true_iff.
  destruct (Qeq_bool x 0) eqn:E; [| reflexivity].
  apply Qeq_bool_iff in E. lra.
Qed.

(** The raw spreads, for a positive inventory bound. *)
Lemma calculate_spreads_pos (params : Params) (i m : Q) :
  0 < m ->
  let base := gamma params * sigma params * sigma params * (timeHorizon params / 60) in
  let skew := default (2 # 10) (inventoryRiskWeight params) * (i / m) in
  calculate_spreads params i m = (base - skew, base + skew).
Proof.
  intros Hm. unfold calculate_spreads. now rewrite (truthy_pos m Hm).
Qed.

Lemma skew_mono (w i1 i2 m : Q) :
  0 <= w -> 0 < m -> i1 <= i2 -> w * (i1 / m) <= w * (i2 / m).
Proof.
  intros Hw Hm Hi.
  assert (Hinv : 0 < / m) by now apply Qinv_lt_0_compat.
  unfold Qdiv.
  assert (Hstep : i1 * / m <= i2 * / m).
  { apply Qmult_le_compat_r; lra. }
  rewrite (Qmult_comm w (i1 * / m)), (Qmult_comm w (i2 * / m)).
  apply Qmult_le_compat_r; assumption.
Qed.

(** C2 (as the code has it): for a non-negative inventory risk weight (the
    default 0.2 included), a positive inventory bound and inventories
    [i1 <= i2], the clamped bid spread at [i2] is at most the one at [i1]
    and the clamped ask spread at [i2] is at least the one at [i1]: a
    longer inventory narrows the bid spread and widens the ask spread,
    each up to the clamp bounds. *)
Theorem C2_spread_skew_monotone :
  forall (params : Params) (min_spread max_spread max_inventory i1 i2 : Q),
    0 <= default (2 # 10) (inventoryRiskWeight params) ->
    0 < max_inventory ->
    i1 <= i2 ->
    clamp_spread min_spread max_spread (fst (calculate_spreads params i2 max_inventory))
      <= clamp_spread min_spread max_spread (fst (calculate_spreads params i1 max_inventory))
    /\
    clamp_spread min_spread max_spread (snd (calculate_spreads params i1 max_inventory))
      <= clamp_spread min_spread max_spread (snd (calculate_spreads params i2 max_inventory)).
Proof.
  intros params lo hi m i1 i2 Hw Hm Hi.
  rewrite !(calculate_spreads_pos params _ m Hm). cbn [fst snd].
  pose proof (skew_mono _ i1 i2 m Hw Hm Hi) as Hskew.
  split; apply clamp_spread_mono; lra.
Qed.

Lemma C2_spread_skew_monotone_witness :
  clamp_spread (1 # 1000) (5 # 100) (fst (calculate_spreads Ex.params 1 5))
    <= clamp_spread (1 # 1000) (5 # 100) (fst (calculate_spreads Ex.params 0 5))
  /\
  clamp_spread (1 # 1000) (5 # 100) (snd (calculate_spreads Ex.params 0 5))
    <= clamp_spread (1 # 1000) (5 # 100) (snd (calculate_spreads Ex.params 1 5)).
Proof.
  apply (C2_spread_skew_monotone Ex.params (1 # 1000) (5 # 100) 5 0 1).
  - vm_compute. discriminate.
  - reflexivity.
  - vm_compute. discriminate.
Defined.

(** C2, counterexample: with gamma 0.2, sigma 0.3, a horizon of 60, weight
    0.2, bounds 0.001 and 0.05 and an inventory bound of 5, going from
    inventory 0 to inventory 1 lowers the clamped bid spread from 0.018 to
    0.001 and raises the clamped ask spread from 0.018 to 0.05. *)
Lemma C2_counterexample :
  clamp_spread (1 # 1000) (5 # 100) (fst (calculate_spreads Ex.params 0 5)) == 18 # 1000
  /\ clamp_spread (1 # 1000) (5 # 100) (fst (calculate_spreads Ex.params 1 5)) == 1 # 1000
  /\ clamp_spread (1 # 1000) (5 # 100) (snd (calculate_spreads Ex.params 0 5)) == 18 # 1000
  /\ clamp_spread (1 # 1000) (5 # 100) (snd (calculate_spreads Ex.params 1 5)) == 5 # 100
  /\ ~ (clamp_spread (1 # 1000) (5 # 100) (fst (calculate_spreads Ex.params 0 5))
        <= clamp_spread (1 # 1000) (5 # 100) (fst (calculate_spreads Ex.params 1 5)))
  /\ ~ (clamp_spread (1 # 1000) (5 # 100) (snd (calculate_spreads Ex.params 1 5))
        <= clamp_spread (1 # 1000) (5 # 100) (snd (calculate_spreads Ex.params 0 5))).
Proof.
  repeat split; try reflexivity; vm_compute; intros Hle; apply Hle; reflexivity.
Qed.

(** C3 (as the code has it): for mid 100, gamma 0.2, sigma 0.3, a horizon of
    60, weight 0.2, inventory 0, an inventory bound of 5 and bounds 0.001
    and 0.05, both raw spreads are 0.018, the clamp leaves them at 0.018,
    the bid price 98.2 falls in the tier of one decimal and stays 98.2, and
    the ask price 101.8 falls in the tier of whole numbers and becomes 102. *)
Theorem C3_worked_example :
  let '(bid, ask) := calculate_spreads Ex.params 0 5 in
  let bid_spread := clamp_spread (1 # 1000) (5 # 100) bid in
  let ask_spread := clamp_spread (1 # 1000) (5 # 100) ask in
  bid == 18 # 1000 /\ ask == 18 # 1000
  /\ bid_spread == 18 # 1000 /\ ask_spread == 18 # 1000
  /\ 100 * (1 - bid_spread) == 982 # 10
  /\ 100 * (1 + ask_spread) == 1018 # 10
  /\ round_price (100 * (1 - bid_spread)) == 982 # 10
  /\ round_price (100 * (1 + ask_spread)) == 102.
Proof. vm_compute. repeat split. Qed.

(** C3, counterexample: the rounded ask price of that input is not 101.80. *)
Lemma C3_counterexample :
  ~ (round_price
       (100 * (1 + clamp_spread (1 # 1000) (5 # 100)
                      (snd (calculate_spreads Ex.params 0 5))))
     == 1018 # 10).
Proof. vm_compute. discriminate. Qed.

(** ** Provider selection *)

Lemma build_analysis_provider_rejects (env : AgentMarketSettings) (mode : string) :
  Str.lower mode <> "auto"%string -> Str.lower mode <> "agent"%string ->
  exists msg, build_analysis_provider env mode = Raise (ValueError msg).
Proof.
  intros Hauto Hagent. unfold build_analysis_provider.
  apply String.eqb_neq in Hauto, Hagent. rewrite Hauto, Hagent. cbn.
  eexists. reflexivity.
Qed.

Lemma build_analysis_provider_fallback (env : AgentMarketSettings) (mode : string)
    provider fallback :
  build_analysis_provider env mode = Ok (provider, fallback) -> fallback = None.
Proof.
  unfold build_analysis_provider, AgentMarketClient_init. cbn.
  destruct (negb _); [discriminate |].
  destruct (negb (Str.nonempty (api_key env))); [discriminate |].
  intros [= _ <-]. reflexivity.
Qed.

(** C9 (as the code has it): the mode is lower-cased first; a mode whose
    lower-cased form is neither "auto" nor "agent" is rejected with a
    [ValueError]; for an accepted mode the builder raises a [ValueError]
    when the API key is empty and otherwise returns the agent.market
    provider paired with an empty fallback slot.  Whatever it returns has
    an empty fallback slot, and so has the maker [main] builds from it. *)
Theorem C9_provider_wiring :
  forall (env : AgentMarketSettings) (mode : string),
    (Str.lower mode <> "auto"%string -> Str.lower mode <> "agent"%string ->
       exists msg, build_analysis_provider env mode = Raise (ValueError msg))
    /\ (Str.lower mode = "auto"%string \/ Str.lower mode = "agent"%string ->
          (api_key env = ""%string ->
             exists msg, build_analysis_provider env mode = Raise (ValueError msg))
          /\ (api_key env <> ""%string ->
                build_analysis_provider env mode =
                  Ok ({| am_client := {| am_settings := env |} |}, None)))
    /\ (forall provider fallback,
          build_analysis_provider env mode = Ok (provider, fallback) ->
          fallback = None)
    /\ (forall hl_client strategy maker,
          main_maker env hl_client strategy mode = Ok maker ->
          fallback_provider maker = None).
Proof.
  intros env mode. split; [| split; [| split]].
  - apply build_analysis_provider_rejects.
  - intros Hvalid.
    assert (Hgate : negb (String.eqb (Str.lower mode) "auto"
                          || String.eqb (Str.lower mode) "agent") = false).
    { destruct Hvalid as [-> | ->]; reflexivity. }
    unfold build_analysis_provider, AgentMarketClient_init. rewrite Hgate. cbn.
    split.
    + intros ->. cbn. eexists. reflexivity.
    + intros Hkey. destruct (api_key env) eqn:E; [congruence | reflexivity].
  - apply build_analysis_provider_fallback.
  - intros hl strategy maker. unfold main_maker.
    destruct (build_analysis_provider env mode) as [[provider fallback] |] eqn:E;
      cbn; [| discriminate].
    intros [= <-]. cbn. now apply build_analysis_provider_fallback in E.
Qed.

Lemma C9_provider_wiring_witness :
  (exists msg, build_analysis_provider (Ex.agent_env "secret") "http" = Raise (ValueError msg))
  /\ build_analysis_provider (Ex.agent_env "secret") "agent" =
       Ok ({| am_client := {| am_settings := Ex.agent_env "secret" |} |}, None).
Proof.
  split.
  - destruct (C9_provider_wiring (Ex.agent_env "secret") "http") as [Hrej _].
    apply Hrej; cbv; discriminate.
  - destruct (C9_provider_wiring (Ex.agent_env "secret") "agent") as (_ & Hacc & _).
    apply Hacc; [right; reflexivity | cbv; discriminate].
Defined.

(** C9, counterexample: "AUTO" is neither "auto" nor "agent", and the
    builder accepts it. *)
Lemma C9_counterexample :
  "AUTO"%string <> "auto"%string /\ "AUTO"%string <> "agent"%string
  /\ build_analysis_provider (Ex.agent_env "secret") "AUTO" =
       Ok ({| am_client := {| am_settings := Ex.agent_env "secret" |} |}, None).
Proof. repeat split; discriminate. Qed.

(** ** Order sizes and the minimum order value *)

Lemma py_div_ok (a b : Q) : ~ b == 0 -> Py.div a b = Ok (a / b).
Proof.
  intros Hb. unfold Py.div.
  destruct (Qeq_bool b 0) eqn:E; [| reflexivity].
  apply Qeq_bool_iff in E. contradiction.
Qed.

(** For a positive price [calculate_position_size] returns, and what it
    returns is zero or worth at least the minimum order value. *)
Lemma calculate_position_size_min (price max_position current_inventory : Q)
    (settings : StrategySettings) (side : Side) :
  0 < price ->
  exists qty,
    calculate_position_size price max_position current_inventory settings side = Ok qty
    /\ (qty == 0 \/ min_order_value settings <= qty * price).
Proof.
  intros Hprice.
  assert (Hnz : ~ price == 0) by lra.
  unfold calculate_position_size.
  rewrite !(py_div_ok _ price Hnz). cbn.
  destruct (Qle_bool max_position 0).
  { eexists. split; [reflexivity | left; reflexivity]. }
  match goal with
  | |- context [Qltb ?q ?m] => destruct (Qltb q m) eqn:E
  end.
  - eexists. split; [reflexivity | left; reflexivity].
  - eexists. split; [reflexivity | right].
    apply Qltb_false in E.
    apply (Qmult_le_compat_r _ _ price) in E; [| lra].
    eapply Qle_trans; [| exact E].
    rewrite Qmult_comm, Qmult_div_r by exact Hnz. apply Qle_refl.
Qed.







(** ** Live submission failures *)

(** C10: in live execution, for a snapshot the cycle decides to quote, the
    loop body always returns (an exception of either submission is caught)
    and the loop goes on with the remaining snapshots; the skipped count is
    unchanged; the placed count grows by 2 exactly when both the buy and
    the sell submission return, and the counts are unchanged when the buy
    raises or when the buy returns and the sell raises.  So the two counts
    can add up to less than the number of snapshots: one snapshot, an
    exchange that accepts the buy and rejects the sell, and the cycle ends
    with 0 placed and 0 skipped after submitting both orders. *)
Theorem C10_failed_submission_uncounted :
  (forall (X : Type) (sdk_order : X -> OrderReq -> X * result string) (P : Type)
          (self : MarketMaker P) (analysis : Analysis)
          (ticker_map : gmap string Ticker) (w : @World X) (c : Counts)
          (snapshot : SymbolSnapshot) (q : Quote),
     quote_symbol (settings self) analysis ticker_map snapshot = Ok (PlaceQuote q) ->
     let buy := place_order sdk_order (client self) w (symbol snapshot) "BUY"
                  (bid_qty q) "LMT" (Some (bid_price q)) "GTC" false in
     let sell := place_order sdk_order (client self) (fst buy) (symbol snapshot) "SELL"
                   (ask_qty q) "LMT" (Some (ask_price q)) "GTC" false in
     exists w' c',
       cycle_step sdk_order self false analysis ticker_map w c snapshot = (w', Ok c')
       /\ (forall rest,
             cycle_loop sdk_order self false analysis ticker_map (snapshot :: rest) w c
             = cycle_loop sdk_order self false analysis ticker_map rest w' c')
       /\ orders_skipped c' = orders_skipped c
       /\ (raised (snd buy) \/ (returned (snd buy) /\ raised (snd sell)) -> c' = c)
       /\ (returned (snd buy) /\ returned (snd sell) -> c' = count_placed c)
       /\ (orders_placed c' = (orders_placed c + 2)%Z
           <-> returned (snd buy) /\ returned (snd sell)))
  /\
  (exists (w' : @World nat) (snapshots : list SymbolSnapshot) (c : Counts),
     run_cycle Ex.first_only Ex.live_maker (HttpRaises "offline") true Ex.fresh
       = (w', [(Primary, snapshots)], Ok c)
     /\ length snapshots = 1%nat
     /\ length (submitted w') = 2%nat
     /\ orders_placed c = 0%Z /\ orders_skipped c = 0%Z
     /\ (orders_placed c + orders_skipped c < Z.of_nat (length snapshots))%Z).
Proof.
  split.
  - intros X sdk_order P self analysis ticker_map w c snapshot q Hq buy sell.
    assert (Hstep :
      cycle_step sdk_order self false analysis ticker_map w c snapshot =
        match snd buy with
        | Raise _ => (fst buy, Ok c)
        | Ok _ => match snd sell with
                  | Raise _ => (fst sell, Ok c)
                  | Ok _ => (fst sell, Ok (count_placed c))
                  end
        end).
    { unfold cycle_step. rewrite Hq. subst sell. subst buy.
      destruct (place_order sdk_order (client self) w _ "BUY" _ _ _ _ _)
        as [w1 [r1 | e1]]; cbn [fst snd]; [| reflexivity].
      destruct (place_order sdk_order (client self) w1 _ "SELL" _ _ _ _ _)
        as [w2 [r2 | e2]]; reflexivity. }
    assert (Hloop : forall w' c',
      cycle_step sdk_order self false analysis ticker_map w c snapshot = (w', Ok c') ->
      forall rest,
        cycle_loop sdk_order self false analysis ticker_map (snapshot :: rest) w c
        = cycle_loop sdk_order self false analysis ticker_map rest w' c').
    { intros w' c' E rest. cbn [cycle_loop]. now rewrite E. }
    destruct (snd buy) as [r1 | e1] eqn:Ebuy.
    + destruct (snd sell) as [r2 | e2] eqn:Esell.
      * exists (fst sell), (count_placed c).
        split; [exact Hstep |]. split; [now apply Hloop |].
        split; [reflexivity |].
        split; [intros [[e He] | [_ [e He]]]; discriminate |].
        split; [reflexivity |].
        split; [intros _; split; eexists; reflexivity | reflexivity].
      * exists (fst sell), c.
        split; [exact Hstep |]. split; [now apply Hloop |].
        split; [reflexivity |].
        split; [reflexivity |].
        split; [intros [_ [a Ha]]; discriminate |].
        split; [lia | intros [_ [a Ha]]; discriminate].
    + exists (fst buy), c.
      split; [exact Hstep |]. split; [now apply Hloop |].
      split; [reflexivity |].
      split; [reflexivity |].
      split; [intros [[a Ha] _]; discriminate |].
      split; [lia | intros [[a Ha] _]; discriminate].
  - eexists _, _, _.
    split; [vm_compute; reflexivity |].
    repeat split.
Qed.

Lemma C10_failed_submission_uncounted_witness :
  exists (w' : @World nat) (c' : Counts),
    cycle_step Ex.first_only Ex.live_maker false Ex.analysis
      {[ "BTC-PERP"%string := Ex.ticker 100 5 ]} Ex.fresh
      {| orders_placed := 0; orders_skipped := 0 |} (Ex.snapshot "BTC-PERP" 100 0)
    = (w', Ok c')
    /\ c' = {| orders_placed := 0; orders_skipped := 0 |}.
Proof.
  destruct C10_failed_submission_uncounted as [Hstep _].
  destruct (quote_symbol (settings Ex.live_maker) Ex.analysis
              {[ "BTC-PERP"%string := Ex.ticker 100 5 ]}
              (Ex.snapshot "BTC-PERP" 100 0)) as [[| q] | e] eqn:Hq;
    try (vm_compute in Hq; discriminate).
  destruct (Hstep nat Ex.first_only Ex.FnProvider Ex.live_maker Ex.analysis
              {[ "BTC-PERP"%string := Ex.ticker 100 5 ]} Ex.fresh
              {| orders_placed := 0; orders_skipped := 0 |}
              (Ex.snapshot "BTC-PERP" 100 0) q Hq)
    as (w' & c' & Hrun & _ & _ & Hsame & _).
  exists w', c'. split; [exact Hrun |].
  apply Hsame. right. split.
  - eexists. vm_compute. reflexivity.
  - eexists. vm_compute. reflexivity.
Defined.

(** ** Flattening positions *)

Section Flatten.

Context {X : Type} (sdk_order : X -> OrderReq -> X * result string).


(** A position of zero size adds nothing. *)
Lemma close_one_zero dry_run slippage tickers (w : @World X) summary pos :
  pos_szi pos == 0 ->
  close_one sdk_order dry_run slippage tickers (w, summary) pos = (w, summary).
Proof.
  intros Hz. unfold close_one. apply Qeq_bool_iff in Hz. now rewrite Hz.
Qed.

(** Every position of nonzero size adds exactly one entry, whatever the
    exchange answers. *)
Lemma close_one_appends dry_run slippage tickers (w : @World X) summary pos :
  ~ pos_szi pos == 0 ->
  exists w' entry,
    close_one sdk_order dry_run slippage tickers (w, summary) pos
    = (w', summary ++ [entry]).
Proof.
  intros Hnz. unfold close_one.
  destruct (Qeq_bool (pos_szi pos) 0) eqn:E; [apply Qeq_bool_iff in E; contradiction |].
  destruct (if not_ticker _ then None else _) as [mid |]; [| eauto].
  destruct (negb (truthy mid)); [eauto |].
  destruct dry_run; [eauto |].
  destruct (submit sdk_order w _) as [w' [response | exc]]; eauto.
Qed.

Lemma close_loop_length dry_run slippage tickers positions :
  forall (w : @World X) summary,
    Forall (fun pos => ~ pos_szi pos == 0) positions ->
    length (snd (fold_left (close_one sdk_order dry_run slippage tickers)
                           positions (w, summary)))
    = (length summary + length positions)%nat.
Proof.
  induction positions as [| pos rest IH]; intros w summary Hall; cbn [fold_left].
  - cbn. lia.
  - inversion Hall as [| ? ? Hpos Hrest]; subst.
    destruct (close_one_appends dry_run slippage tickers w summary pos Hpos)
      as (w' & entry & ->).
    rewrite (IH w' (summary ++ [entry]) Hrest), length_app. cbn. lia.
Qed.

End Flatten.



(** ** Building the snapshots *)

Lemma snapshot_step_for ticker_map inventory_map changes snapshots sym :
  snapshot_step ticker_map inventory_map changes snapshots sym =
    snapshots ++ option_list (snapshot_for ticker_map inventory_map changes sym).
Proof.
  unfold snapshot_step, snapshot_for, not_ticker, ticker_is_empty, or_num, not_num.
  destruct (ticker_map !! sym) as [t |]; cbn; [| now rewrite app_nil_r].
  destruct (tk_price t) as [p |], (tk_mid t) as [m |], (tk_szDecimals t) as [d |]; cbn;
    repeat match goal with
    | |- context [truthy ?x] => destruct (truthy x) eqn:?; cbn
    end;
    rewrite ?app_nil_r; try reflexivity; congruence.
Qed.

Lemma snapshot_loop_for ticker_map inventory_map changes symbols :
  forall snapshots,
    fold_left (snapshot_step ticker_map inventory_map changes) symbols snapshots =
      snapshots ++ omap (snapshot_for ticker_map inventory_map changes) symbols.
Proof.
  induction symbols as [| sym rest IH]; intros snapshots; cbn [fold_left].
  - cbn. now rewrite app_nil_r.
  - rewrite IH, snapshot_step_for, <- app_assoc. f_equal.
    cbn -[snapshot_for]. destruct (snapshot_for _ _ _ sym); reflexivity.
Qed.

(** The snapshots come in the order of the configured symbols, one for each
    symbol that [snapshot_for] keeps. *)
Lemma build_snapshots_in_order settings coingecko ticker_map inventory_map changes :
  fetch_24h_changes coingecko (primary_markets settings) = Ok changes ->
  _build_snapshots settings coingecko ticker_map inventory_map =
    Ok (omap (snapshot_for ticker_map inventory_map changes) (primary_markets settings)).
Proof.
  intros Hch. unfold _build_snapshots. rewrite Hch. cbn.
  now rewrite snapshot_loop_for.
Qed.

(** A symbol without a ticker, or whose price is missing or zero, gives no
    snapshot; a kept symbol carries the inventory of the map, or 0. *)
Lemma snapshot_for_kept ticker_map inventory_map changes sym snap :
  snapshot_for ticker_map inventory_map changes sym = Some snap ->
  symbol snap = sym
  /\ (exists t, ticker_map !! sym = Some t
                /\ or_num (tk_price t) (tk_mid t) = Some (mid_price snap))
  /\ ~ mid_price snap == 0
  /\ inventory snap = default 0 (inventory_map !! sym)
  /\ change_24h snap = changes !! sym.
Proof.
  unfold snapshot_for.
  destruct (ticker_map !! sym) as [t |]; cbn; [| discriminate].
  destruct (or_num (tk_price t) (tk_mid t)) as [p |] eqn:Hp; cbn; [| discriminate].
  destruct (truthy p) eqn:Ht; [| discriminate].
  intros [= <-]. cbn. repeat split; eauto.
  intros Hz. apply Qeq_bool_iff in Hz. unfold truthy in Ht. now rewrite Hz in Ht.
Qed.

(** When the request of the 24h changes raises, the lookup degrades to no
    data: the same symbols are kept and every [change_24h] is absent. *)
Lemma fetch_24h_changes_request_failure msg symbols :
  fetch_24h_changes (HttpRaises msg) symbols = Ok ∅.
Proof. unfold fetch_24h_changes. now destruct (decide _). Qed.

Lemma build_snapshots_request_failure settings msg ticker_map inventory_map :
  _build_snapshots settings (HttpRaises msg) ticker_map inventory_map =
    Ok (omap (snapshot_for ticker_map inventory_map ∅) (primary_markets settings)).
Proof.
  apply build_snapshots_in_order, fetch_24h_changes_request_failure.
Qed.

(** C4, at the failing input: a configured symbol whose ticker carries the
    price -1 is not passed over; [_build_snapshots] returns a snapshot with
    mid price -1 for it, although the loop of the cycle, which tests
    [mid_price <= 0] on the same ticker, then skips the symbol. *)
Theorem C4_negative_price_kept :
  exists snap,
    _build_snapshots Ex.btc_only (HttpRaises "offline") Ex.negative_tickers ∅
      = Ok [snap]
    /\ symbol snap = "BTC-PERP"%string
    /\ mid_price snap == - (1)
    /\ ~ 0 < mid_price snap
    /\ quote_symbol Ex.btc_only Ex.analysis Ex.negative_tickers snap = Ok SkipSymbol.
Proof.
  eexists. split; [vm_compute; reflexivity |].
  split; [reflexivity |]. split; [reflexivity |].
  split; [vm_compute; discriminate | vm_compute; reflexivity].
Qed.

(** ** Polling for the provider's message *)

Lemma string_compare_cotrans (a b c : string) :
  String.compare a c = Lt ->
  String.compare a b = Lt \/ String.compare b c = Lt.
Proof.
  revert b c.
  induction a as [| x a IH]; intros [| y b] [| z c]; cbn; try discriminate; auto.
  unfold Ascii.compare.
  destruct (N.compare_spec (N_of_ascii x) (N_of_ascii z)) as [Exz | Lxz | Gxz];
    try discriminate; intros Hac;
    destruct (N.compare_spec (N_of_ascii x) (N_of_ascii y)) as [Exy | Lxy | Gxy];
    destruct (N.compare_spec (N_of_ascii y) (N_of_ascii z)) as [Eyz | Lyz | Gyz];
    auto; lia.
Qed.

Lemma string_ltb_irrefl (a : string) : String.ltb a a = false.
Proof.
  unfold String.ltb.
  destruct (String.compare a a) eqn:E; try reflexivity.
  pose proof (String.compare_antisym a a) as H. rewrite E in H. discriminate.
Qed.

Lemma string_ltb_false_trans (a b c : string) :
  String.ltb a b = false -> String.ltb b c = false -> String.ltb a c = false.
Proof.
  unfold String.ltb. intros Hab Hbc.
  destruct (String.compare a c) eqn:Hac; try reflexivity.
  destruct (string_compare_cotrans a b c Hac) as [H | H]; rewrite H in *; discriminate.
Qed.

Lemma string_ltb_asym (a b : string) :
  String.ltb a b = true -> String.ltb b a = false.
Proof.
  unfold String.ltb. rewrite (String.compare_antisym a b).
  destruct (String.compare b a); cbn; congruence.
Qed.


(** Sorting a non-empty list puts in front one of its messages whose
    timestamp none of the others exceeds. *)
Lemma sort_desc_head (l : list ChatMessage) :
  l <> [] ->
  exists first rest, sort_desc l = first :: rest /\ In first l /\ latest first l.
Proof.
  induction l as [| x l IH]; [congruence |]. intros _.
  cbn [sort_desc fold_right]. fold (sort_desc l).
  destruct l as [| y l'].
  - cbn. exists x, []. repeat split; [now left |].
    constructor; [apply string_ltb_irrefl | constructor].
  - destruct IH as (h & t & Hs & Hin & Hmax); [discriminate |].
    rewrite Hs. cbn [insert_desc].
    destruct (String.ltb (timestamp_key x) (timestamp_key h)) eqn:E.
    + exists h, (insert_desc x t). repeat split; [now right |].
      constructor; [now apply string_ltb_asym | exact Hmax].
    + exists x, (h :: t). repeat split; [now left |].
      constructor; [apply string_ltb_irrefl |].
      unfold latest in *. rewrite Forall_forall in *. intros m Hm.
      eapply string_ltb_false_trans; [exact E | now apply Hmax].
Qed.

Lemma expected_trace_S (interval : Q) (n : nat) :
  expected_trace interval (S n) = expected_trace interval n ++ attempt_events interval n.
Proof.
  unfold expected_trace. rewrite seq_S, flat_map_app. cbn. now rewrite app_nil_r.
Qed.

Lemma poll_loop_step_events (self : AgentMarketClient) (attempt : nat) :
  (match attempt with
   | O => []
   | S _ => [Sleep (poll_interval (am_settings self))]
   end) ++ [Fetch attempt]
  = attempt_events (poll_interval (am_settings self)) attempt.
Proof. destruct attempt; reflexivity. Qed.

(** A quiet attempt is followed by the rest of the loop. *)
Lemma poll_loop_quiet (self : AgentMarketClient) chat remaining attempt :
  quiet (chat attempt) ->
  poll_loop self chat (S remaining) attempt =
    (attempt_events (poll_interval (am_settings self)) attempt
       ++ fst (poll_loop self chat remaining (S attempt)),
     snd (poll_loop self chat remaining (S attempt))).
Proof.
  intros Hq. cbn [poll_loop]. rewrite <- poll_loop_step_events.
  destruct (poll_loop self chat remaining (S attempt)) as [evs r]. cbn [fst snd].
  unfold quiet in Hq.
  destruct (chat attempt) as [messages | exc].
  - rewrite Hq. now rewrite <- app_assoc.
  - rewrite Hq. now rewrite <- app_assoc.
Qed.


Lemma poll_loop_quiet_run (self : AgentMarketClient) chat n :
  forall remaining attempt,
    (forall k, (k < n)%nat -> quiet (chat (attempt + k)%nat)) ->
    poll_loop self chat (n + remaining) attempt =
      (flat_map (attempt_events (poll_interval (am_settings self))) (seq attempt n)
         ++ fst (poll_loop self chat remaining (attempt + n)),
       snd (poll_loop self chat remaining (attempt + n))).
Proof.
  induction n as [| n IH]; intros remaining attempt Hq.
  - cbn [Nat.add seq flat_map app]. rewrite Nat.add_0_r.
    now destruct (poll_loop self chat remaining attempt).
  - cbn [Nat.add]. rewrite poll_loop_quiet.
    2:{ specialize (Hq 0%nat). rewrite Nat.add_0_r in Hq. apply Hq. lia. }
    rewrite IH.
    2:{ intros k Hk. replace (S attempt + k)%nat with (attempt + S k)%nat by lia.
        apply Hq. lia. }
    cbn [fst snd seq flat_map].
    replace (S attempt + n)%nat with (attempt + S n)%nat by lia.
    now rewrite <- app_assoc.
Qed.




(** On the example transcript the later of the two answers is returned,
    after a fetch, a sleep of the interval and a second fetch. *)
Example poll_provider_message_example :
  poll_provider_message Ex.agent_client Ex.chat
    = ([Fetch 0; Sleep 5; Fetch 1], Ok (Some "second answer"%string)).
Proof. vm_compute. reflexivity. Qed.

(** ** Parsing the provider's message *)

(** *** Stripping *)






(** *** The first and the last brace *)





(** *** Lines *)








(** *** Joining *)




(** *** The cleaned message *)






(** A body given by its lines: no line holds a line boundary or a fence,
    and the whole opens and closes with a brace. *)
Section WrappedBody.

Variables (body_lines : list Text.text) (inner : Text.text).
Hypothesis Hbreaks :
  Forall (Forall (fun c => Text.is_linebreak c = false)) body_lines.
Hypothesis Hfences :
  Forall (fun line => Text.contains FENCE line = false) body_lines.
Hypothesis Hbraces : Text.join_lines body_lines = LBRACE :: inner ++ [RBRACE].

Local Abbreviation body := (Text.join_lines body_lines).










End WrappedBody.

(** *** Decoding and the required keys *)

Section ParseProps.

Context {JsonValue : Type}.
Variable json_loads : Text.text -> option (gmap string JsonValue).




End ParseProps.






(** On the example the fenced message and the body alone both parse to
    the decoded object. *)
Example parse_analysis_fenced_example :
  _parse_analysis Ex.decode Ex.fenced = Ok Ex.decoded
  /\ _parse_analysis Ex.decode Ex.body = Ok Ex.decoded.
Proof. split; vm_compute; reflexivity. Qed.


(** * Further properties *)

(** ** Rounding *)

Lemma round_half_even_cases (x : Q) :
  Py.round_half_even x = Qfloor x \/ Py.round_half_even x = (Qfloor x + 1)%Z.
Proof.
  unfold Py.round_half_even.
  destruct (Qcompare _ _); [destruct (Z.even _) | |]; auto.
Qed.

Lemma round_half_even_proper (x y : Q) :
  x == y -> Py.round_half_even x = Py.round_half_even y.
Proof.
  intros E. unfold Py.round_half_even.
  rewrite (Qfloor_comp x y E).
  assert (E' : x - inject_Z (Qfloor y) == y - inject_Z (Qfloor y)) by now rewrite E.
  now rewrite (Qcompare_comp _ _ E' (1 # 2) (1 # 2) (Qeq_refl _)).
Qed.

(** An integer rounds to itself. *)
Lemma round_half_even_Z (z : Z) : Py.round_half_even (inject_Z z) = z.
Proof.
  unfold Py.round_half_even. rewrite Qfloor_Z.
  assert (E : inject_Z z - inject_Z z == 0) by ring.
  rewrite (Qcompare_comp _ _ E (1 # 2) (1 # 2) (Qeq_refl _)). reflexivity.
Qed.

(** Rounding keeps the order. *)
Lemma round_half_even_mono (x y : Q) :
  x <= y -> (Py.round_half_even x <= Py.round_half_even y)%Z.
Proof.
  intros Hxy.
  pose proof (Qfloor_resp_le x y Hxy) as Hfl.
  destruct (Z.eq_dec (Qfloor x) (Qfloor y)) as [Heq | Hne].
  - unfold Py.round_half_even. rewrite <- Heq.
    destruct (Qcompare_spec (x - inject_Z (Qfloor x)) (1 # 2)) as [Hx | Hx | Hx];
    destruct (Qcompare_spec (y - inject_Z (Qfloor x)) (1 # 2)) as [Hy | Hy | Hy];
      try destruct (Z.even (Qfloor x)); try lia; exfalso; lra.
  - destruct (round_half_even_cases x) as [-> | ->],
             (round_half_even_cases y) as [-> | ->]; lia.
Qed.

(** Rounding moves a number by at most one half. *)
Lemma round_half_even_near (x : Q) :
  inject_Z (Py.round_half_even x) - (1 # 2) <= x
  /\ x <= inject_Z (Py.round_half_even x) + (1 # 2).
Proof.
  pose proof (Qfloor_le x) as Hlo. pose proof (Qlt_floor x) as Hhi.
  rewrite inject_Z_plus in Hhi. change (inject_Z 1) with 1 in Hhi.
  unfold Py.round_half_even.
  destruct (Qcompare_spec (x - inject_Z (Qfloor x)) (1 # 2)) as [Hx | Hx | Hx].
  - destruct (Z.even (Qfloor x)); rewrite ?inject_Z_plus;
      change (inject_Z 1) with 1; lra.
  - lra.
  - rewrite inject_Z_plus. change (inject_Z 1) with 1. lra.
Qed.

(** [round(x, ndigits)] at a scale [s = 10 ^ ndigits]. *)
Lemma py_round_scale (x : Q) (ndigits s : Z) :
  Qpower (10 # 1) ndigits == inject_Z s ->
  Py.round x ndigits == inject_Z (Py.round_half_even (x * inject_Z s)) / inject_Z s.
Proof.
  intros Hs. unfold Py.round.
  rewrite (round_half_even_proper (x * Qpower (10 # 1) ndigits) (x * inject_Z s))
    by now rewrite Hs.
  now rewrite Hs.
Qed.

Section Grid.

(** Rounding on the grid of the multiples of [1 / s]. *)
Variable s : Z.
Hypothesis Hs : (0 < s)%Z.

Local Abbreviation grid x := (inject_Z (Py.round_half_even (x * inject_Z s)) / inject_Z s).

Lemma grid_scale_pos : 0 < inject_Z s.
Proof. change 0 with (inject_Z 0). now rewrite <- Zlt_Qlt. Qed.

Lemma grid_mono (x y : Q) : x <= y -> grid x <= grid y.
Proof.
  intros Hxy. pose proof grid_scale_pos as Hpos.
  apply Qle_shift_div_l; [exact Hpos |].
  unfold Qdiv. rewrite <- Qmult_assoc, (Qmult_comm (/ inject_Z s)),
    Qmult_inv_r, Qmult_1_r by lra.
  rewrite <- Zle_Qle. apply round_half_even_mono.
  apply Qmult_le_compat_r; lra.
Qed.

(** A point of the grid is left where it is. *)
Lemma grid_fixed (k : Z) : grid (inject_Z k / inject_Z s) == inject_Z k / inject_Z s.
Proof.
  pose proof grid_scale_pos as Hpos.
  rewrite (round_half_even_proper (inject_Z k / inject_Z s * inject_Z s) (inject_Z k)).
  - now rewrite round_half_even_Z.
  - field. lra.
Qed.

Lemma grid_idempotent (x : Q) : grid (grid x) == grid x.
Proof. apply grid_fixed. Qed.

(** A bound that lies on the grid is respected. *)
Lemma grid_lower (bound : Z) (x : Q) :
  inject_Z bound <= x -> inject_Z bound <= grid x.
Proof.
  intros Hx. pose proof grid_scale_pos as Hpos.
  apply Qle_shift_div_l; [exact Hpos |].
  rewrite <- inject_Z_mult, <- Zle_Qle.
  rewrite <- (round_half_even_Z (bound * s)).
  apply round_half_even_mono. rewrite inject_Z_mult.
  apply Qmult_le_compat_r; lra.
Qed.

Lemma grid_upper (bound : Z) (x : Q) :
  x <= inject_Z bound -> grid x <= inject_Z bound.
Proof.
  intros Hx. pose proof grid_scale_pos as Hpos.
  apply Qle_shift_div_r; [exact Hpos |].
  rewrite <- inject_Z_mult, <- Zle_Qle.
  rewrite <- (round_half_even_Z (bound * s)).
  apply round_half_even_mono. rewrite inject_Z_mult.
  apply Qmult_le_compat_r; lra.
Qed.

End Grid.

Lemma py_round_proper (x y : Q) (ndigits : Z) :
  x == y -> Py.round x ndigits == Py.round y ndigits.
Proof.
  intros E. unfold Py.round.
  now rewrite (round_half_even_proper (x * Qpower (10 # 1) ndigits)
                 (y * Qpower (10 # 1) ndigits)) by now rewrite E.
Qed.

Section RoundDigits.

(** [round(x, ndigits)] for a number of digits whose power of ten is [s]. *)
Variables (ndigits s : Z).
Hypothesis Hs : (0 < s)%Z.
Hypothesis Hpow : Qpower (10 # 1) ndigits == inject_Z s.

Lemma py_round_mono (x y : Q) : x <= y -> Py.round x ndigits <= Py.round y ndigits.
Proof.
  intros Hxy. rewrite !(py_round_scale _ ndigits s Hpow). now apply grid_mono.
Qed.

Lemma py_round_lower (bound : Z) (x : Q) :
  inject_Z bound <= x -> inject_Z bound <= Py.round x ndigits.
Proof.
  intros Hx. rewrite (py_round_scale _ ndigits s Hpow). now apply grid_lower.
Qed.

Lemma py_round_upper (bound : Z) (x : Q) :
  x <= inject_Z bound -> Py.round x ndigits <= inject_Z bound.
Proof.
  intros Hx. rewrite (py_round_scale _ ndigits s Hpow). now apply grid_upper.
Qed.

(** An integer has nothing to round. *)
Lemma py_round_integer (b : Z) (x : Q) :
  x == inject_Z b -> Py.round x ndigits == x.
Proof.
  intros Hx. rewrite (py_round_scale _ ndigits s Hpow).
  assert (Hpos : 0 < inject_Z s) by now apply grid_scale_pos.
  rewrite (round_half_even_proper (x * inject_Z s) (inject_Z (b * s)))
    by (rewrite Hx, inject_Z_mult; reflexivity).
  rewrite round_half_even_Z, Hx, inject_Z_mult. field. lra.
Qed.

Lemma py_round_idempotent (x : Q) :
  Py.round (Py.round x ndigits) ndigits == Py.round x ndigits.
Proof.
  pose proof (py_round_scale x ndigits s Hpow) as Hx.
  rewrite (py_round_proper (Py.round x ndigits) _ ndigits Hx).
  rewrite (py_round_scale _ ndigits s Hpow), Hx. now apply grid_fixed.
Qed.

End RoundDigits.

(** *** The price tiers *)

Lemma Qle_bool_false (a b : Q) : Qle_bool a b = false <-> b < a.
Proof.
  split.
  - intros E. destruct (Qlt_le_dec b a) as [H | H]; [exact H |].
    apply Qle_bool_iff in H. congruence.
  - intros H. destruct (Qle_bool a b) eqn:E; [| reflexivity].
    apply Qle_bool_iff in E. lra.
Qed.

(** The five tiers of [round_price]. *)
Lemma round_price_cases (x : Q) :
  (10000 <= x /\ round_price x = inject_Z (Py.round_half_even (x / 10) * 10))
  \/ (100 <= x /\ x < 10000 /\ round_price x = inject_Z (Py.round_half_even x))
  \/ (10 <= x /\ x < 100 /\ round_price x = Py.round x 1)
  \/ (1 <= x /\ x < 10 /\ round_price x = Py.round x 2)
  \/ (x < 1 /\ round_price x = Py.round x 4).
Proof.
  unfold round_price, Py.round0.
  destruct (Qle_bool 10000 x) eqn:E1;
    [apply Qle_bool_iff in E1; auto | apply Qle_bool_false in E1].
  destruct (Qle_bool 100 x) eqn:E2;
    [apply Qle_bool_iff in E2; auto | apply Qle_bool_false in E2].
  destruct (Qle_bool 10 x) eqn:E3;
    [apply Qle_bool_iff in E3; auto 6 | apply Qle_bool_false in E3].
  destruct (Qle_bool 1 x) eqn:E4;
    [apply Qle_bool_iff in E4; auto 8 | apply Qle_bool_false in E4].
  auto 10.
Qed.

Lemma tens_lower (bound : Z) (x : Q) :
  inject_Z (bound * 10) <= x ->
  inject_Z (bound * 10) <= inject_Z (Py.round_half_even (x / 10) * 10).
Proof.
  intros Hx. rewrite <- Zle_Qle. apply Z.mul_le_mono_nonneg_r; [lia |].
  rewrite <- (round_half_even_Z bound). apply round_half_even_mono.
  rewrite inject_Z_mult in Hx. change (inject_Z 10) with 10 in Hx.
  apply Qle_shift_div_l; lra.
Qed.

Lemma tens_mono (x y : Q) :
  x <= y ->
  inject_Z (Py.round_half_even (x / 10) * 10)
    <= inject_Z (Py.round_half_even (y / 10) * 10).
Proof.
  intros Hxy. rewrite <- Zle_Qle. apply Z.mul_le_mono_nonneg_r; [lia |].
  apply round_half_even_mono. unfold Qdiv. apply Qmult_le_compat_r; [exact Hxy |].
  discriminate.
Qed.

Lemma tens_integer (b : Z) (x : Q) :
  x == inject_Z (b * 10) ->
  inject_Z (Py.round_half_even (x / 10) * 10) == x.
Proof.
  intros Hx.
  rewrite (round_half_even_proper (x / 10) (inject_Z b)).
  - now rewrite round_half_even_Z, Hx.
  - rewrite Hx, inject_Z_mult. change (inject_Z 10) with 10. field.
Qed.

Lemma units_integer (b : Z) (x : Q) :
  x == inject_Z b -> inject_Z (Py.round_half_even x) == x.
Proof.
  intros Hx. now rewrite (round_half_even_proper x (inject_Z b) Hx), round_half_even_Z.
Qed.

Lemma units_lower (bound : Z) (x : Q) :
  inject_Z bound <= x -> inject_Z bound <= inject_Z (Py.round_half_even x).
Proof.
  intros Hx. rewrite <- Zle_Qle, <- (round_half_even_Z bound).
  now apply round_half_even_mono.
Qed.

Lemma units_upper (bound : Z) (x : Q) :
  x <= inject_Z bound -> inject_Z (Py.round_half_even x) <= inject_Z bound.
Proof.
  intros Hx. rewrite <- Zle_Qle, <- (round_half_even_Z bound).
  now apply round_half_even_mono.
Qed.

Lemma pow10_1 : Qpower (10 # 1) 1 == inject_Z 10.
Proof. reflexivity. Qed.

Lemma pow10_2 : Qpower (10 # 1) 2 == inject_Z 100.
Proof. reflexivity. Qed.

Lemma pow10_4 : Qpower (10 # 1) 4 == inject_Z 10000.
Proof. reflexivity. Qed.

(** Each tier with where its result lies: between the bounds of the tier,
    bounds included. *)
Lemma round_price_tier (x : Q) :
  (10000 <= x /\ round_price x = inject_Z (Py.round_half_even (x / 10) * 10)
   /\ 10000 <= round_price x)
  \/ (100 <= x /\ x < 10000 /\ round_price x = inject_Z (Py.round_half_even x)
      /\ 100 <= round_price x /\ round_price x <= 10000)
  \/ (10 <= x /\ x < 100 /\ round_price x = Py.round x 1
      /\ 10 <= round_price x /\ round_price x <= 100)
  \/ (1 <= x /\ x < 10 /\ round_price x = Py.round x 2
      /\ 1 <= round_price x /\ round_price x <= 10)
  \/ (x < 1 /\ round_price x = Py.round x 4 /\ round_price x <= 1).
Proof.
  destruct (round_price_cases x)
    as [(H1 & E) | [(H1 & H2 & E) | [(H1 & H2 & E) | [(H1 & H2 & E) | (H1 & E)]]]];
    rewrite E.
  - left. repeat split; try assumption.
    apply (tens_lower 1000). exact H1.
  - right; left. repeat split; try assumption.
    + apply (units_lower 100). exact H1.
    + apply (units_upper 10000). (cbv [inject_Z]; lra).
  - do 2 right; left. repeat split; try assumption.
    + apply (py_round_lower 1 10 ltac:(lia) pow10_1 10). exact H1.
    + apply (py_round_upper 1 10 ltac:(lia) pow10_1 100). (cbv [inject_Z]; lra).
  - do 3 right; left. repeat split; try assumption.
    + apply (py_round_lower 2 100 ltac:(lia) pow10_2 1). exact H1.
    + apply (py_round_upper 2 100 ltac:(lia) pow10_2 10). (cbv [inject_Z]; lra).
  - do 4 right. repeat split; try assumption.
    apply (py_round_upper 4 10000 ltac:(lia) pow10_4 1). (cbv [inject_Z]; lra).
Qed.

(** X1: [round_price] keeps the order of prices, across the tiers too. *)
Theorem round_price_monotone :
  forall x y : Q, x <= y -> round_price x <= round_price y.
Proof.
  intros x y Hxy.
  destruct (round_price_tier x)
    as [(X1 & Ex & X3) | [(X1 & X2 & Ex & X3 & X4) | [(X1 & X2 & Ex & X3 & X4)
       | [(X1 & X2 & Ex & X3 & X4) | (X1 & Ex & X3)]]]];
  destruct (round_price_tier y)
    as [(Y1 & Ey & Y3) | [(Y1 & Y2 & Ey & Y3 & Y4) | [(Y1 & Y2 & Ey & Y3 & Y4)
       | [(Y1 & Y2 & Ey & Y3 & Y4) | (Y1 & Ey & Y3)]]]];
  first
    [ lra
    | rewrite Ex, Ey; first
        [ now apply tens_mono
        | rewrite <- Zle_Qle; now apply round_half_even_mono
        | now apply (py_round_mono 1 10 ltac:(lia) pow10_1)
        | now apply (py_round_mono 2 100 ltac:(lia) pow10_2)
        | now apply (py_round_mono 4 10000 ltac:(lia) pow10_4) ] ].
Qed.

Lemma round_price_monotone_witness : round_price (982 # 10) <= round_price (1018 # 10).
Proof. apply round_price_monotone. vm_compute. discriminate. Defined.

(** X2: rounding a rounded price again changes nothing, also when the
    first rounding lifted the price onto the bound of the next tier. *)
Theorem round_price_idempotent :
  forall x : Q, round_price (round_price x) == round_price x.
Proof.
  intros x.
  destruct (round_price_tier x)
    as [(X1 & Ex & X3) | [(X1 & X2 & Ex & X3 & X4) | [(X1 & X2 & Ex & X3 & X4)
       | [(X1 & X2 & Ex & X3 & X4) | (X1 & Ex & X3)]]]];
  destruct (round_price_cases (round_price x))
    as [(R1 & Er) | [(R1 & R2 & Er) | [(R1 & R2 & Er) | [(R1 & R2 & Er) | (R1 & Er)]]]];
  rewrite Er;
  try (exfalso; lra);
  try (apply (units_integer 100); apply Qle_antisym; cbv [inject_Z]; lra);
  try (apply (py_round_integer 1 10 ltac:(lia) pow10_1 10);
       apply Qle_antisym; cbv [inject_Z]; lra);
  try (apply (py_round_integer 2 100 ltac:(lia) pow10_2 1);
       apply Qle_antisym; cbv [inject_Z]; lra).
  - rewrite Ex. apply (tens_integer (Py.round_half_even (x / 10))). reflexivity.
  - apply (tens_integer 1000). change (inject_Z (1000 * 10)) with 10000.
    apply Qle_antisym; lra.
  - rewrite Ex. apply (units_integer (Py.round_half_even x)). reflexivity.
  - rewrite Ex. apply (py_round_idempotent 1 10 ltac:(lia) pow10_1).
  - rewrite Ex. apply (py_round_idempotent 2 100 ltac:(lia) pow10_2).
  - rewrite Ex. apply (py_round_idempotent 4 10000 ltac:(lia) pow10_4).
Qed.

(** ** Spreads *)

(** X3: the clamp never returns less than the lower bound; with the bounds
    in order it never returns more than the upper bound; with the bounds
    out of order (lower above upper) it returns the lower bound, whatever
    the spread. *)
Theorem clamp_spread_range :
  forall lo hi x : Q,
    lo <= clamp_spread lo hi x
    /\ (lo <= hi -> clamp_spread lo hi x <= hi)
    /\ (hi < lo -> clamp_spread lo hi x == lo).
Proof.
  intros lo hi x. unfold clamp_spread.
  repeat split; intros; case_py; lra.
Qed.

Lemma clamp_spread_range_witness :
  clamp_spread (1 # 1000) (5 # 100) 7 <= 5 # 100
  /\ clamp_spread (5 # 100) (1 # 1000) 7 == 5 # 100.
Proof.
  destruct (clamp_spread_range (1 # 1000) (5 # 100) 7) as (_ & Hhi & _).
  destruct (clamp_spread_range (5 # 100) (1 # 1000) 7) as (_ & _ & Hinv).
  split; [apply Hhi | apply Hinv]; vm_compute; congruence.
Defined.

(** X4: the two raw spreads are symmetric about the base spread
    gamma * sigma^2 * horizon / 60, whatever the inventory; with a maximum
    inventory of zero the division is not attempted and both are the base
    spread. *)
Theorem calculate_spreads_symmetric :
  forall (params : Params) (current_inventory max_inventory : Q),
    let base := gamma params * sigma params * sigma params * (timeHorizon params / 60) in
    let '(bid, ask) := calculate_spreads params current_inventory max_inventory in
    bid + ask == 2 * base
    /\ (max_inventory == 0 -> bid == base /\ ask == base).
Proof.
  intros params i m base. unfold calculate_spreads. fold base. split.
  - ring.
  - intros Hm. apply Qeq_bool_iff in Hm. unfold truthy. rewrite Hm. cbn.
    split; ring.
Qed.

Lemma calculate_spreads_symmetric_witness :
  fst (calculate_spreads Ex.params 3 0) == 18 # 1000
  /\ snd (calculate_spreads Ex.params 3 0) == 18 # 1000.
Proof.
  pose proof (calculate_spreads_symmetric Ex.params 3 0) as H.
  destruct (calculate_spreads Ex.params 3 0) as [bid ask].
  destruct H as [_ H]. destruct (H ltac:(reflexivity)) as [Hb Ha].
  cbn [fst snd]. rewrite Hb, Ha. split; reflexivity.
Defined.

(** ** Order sizes *)

(** The dampening factor lies between 0.3 and 1. *)
Lemma damp_range (current_inventory max_position : Q) :
  0 < max_position ->
  let damp := Py.max (3 # 10) (1 - Qabs current_inventory / max_position) in
  3 # 10 <= damp /\ damp <= 1.
Proof.
  intros Hmax damp.
  assert (Hratio : 0 <= Qabs current_inventory / max_position).
  { apply Qle_shift_div_l; [exact Hmax |]. rewrite Qmult_0_l. apply Qabs_nonneg. }
  subst damp. case_py; lra.
Qed.

Lemma side_factor_range (side : Side) (current_inventory max_position : Q) :
  0 < max_position ->
  let damp := Py.max (3 # 10) (1 - Qabs current_inventory / max_position) in
  let factor :=
    match side with
    | Bid => if Qltb 0 current_inventory then damp else 1
    | Ask => if Qltb current_inventory 0 then damp else 1
    end in
  3 # 10 <= factor /\ factor <= 1.
Proof.
  intros Hmax damp factor.
  pose proof (damp_range current_inventory max_position Hmax) as Hd.
  subst factor. destruct side;
    match goal with |- context [Qltb ?a ?b] => destruct (Qltb a b) end;
    (exact Hd || lra).
Qed.

Lemma scaled_between (m f : Q) :
  0 <= m -> 0 <= f -> f <= 1 -> 0 <= m * f /\ m * f <= m.
Proof.
  intros Hm Hf0 Hf1. split.
  - now apply Qmult_le_0_compat.
  - rewrite <- (Qmult_1_r m) at 2. rewrite !(Qmult_comm m).
    apply Qmult_le_compat_r; assumption.
Qed.

(** X5: for a positive price and a non-negative portfolio value, the
    quantity [calculate_position_size] returns is never negative, never
    above the position bound, and never worth more than half of the capital
    per configured market; with a position bound that is not positive it
    is zero. *)
Theorem calculate_position_size_bounds :
  forall (price max_position current_inventory : Q) (settings : StrategySettings)
         (side : Side) (qty : Q),
    0 < price ->
    0 <= portfolio_value settings ->
    calculate_position_size price max_position current_inventory settings side = Ok qty ->
    let markets := Z.max (Z.of_nat (length (primary_markets settings))) 1 in
    0 <= qty
    /\ (0 < max_position -> qty <= max_position)
    /\ (max_position <= 0 -> qty == 0)
    /\ qty * price <= portfolio_value settings / inject_Z markets * (1 # 2).
Proof.
  intros price max_position inv settings side qty Hprice Hpv Hcalc markets.
  assert (Hnz : ~ price == 0) by lra.
  assert (Hmarkets : 0 < inject_Z markets).
  { change 0 with (inject_Z 0). rewrite <- Zlt_Qlt. subst markets. lia. }
  set (half := portfolio_value settings / inject_Z markets * (1 # 2)).
  assert (Hhalf : 0 <= half).
  { subst half. apply Qmult_le_0_compat; [| discriminate].
    apply Qle_shift_div_l; [exact Hmarkets | lra]. }
  assert (Hzero : 0 * price <= half) by lra.
  unfold calculate_position_size in Hcalc. fold markets half in Hcalc.
  rewrite !(py_div_ok _ price Hnz) in Hcalc. cbn in Hcalc.
  destruct (Qle_bool max_position 0) eqn:Emax.
  { injection Hcalc as <-. apply Qle_bool_iff in Emax.
    repeat split; intros; lra. }
  apply Qle_bool_false in Emax.
  pose proof (side_factor_range side inv max_position Emax) as [Hf0 Hf1].
  cbv zeta in Hf0, Hf1.
  set (factor := match side with Bid => _ | Ask => _ end) in *.
  set (max_qty := Py.min (half / price) max_position) in *.
  assert (Hcap : 0 <= half / price).
  { apply Qle_shift_div_l; [exact Hprice | lra]. }
  assert (Hm : 0 <= max_qty /\ max_qty <= half / price /\ max_qty <= max_position).
  { subst max_qty. case_py; repeat split; lra. }
  destruct Hm as (Hm0 & Hm1 & Hm2).
  destruct (scaled_between max_qty factor Hm0 ltac:(lra) Hf1) as [Hq0 Hq1].
  assert (Hworth : max_qty * factor * price <= half).
  { apply Qle_trans with (half / price * price).
    - apply Qmult_le_compat_r; lra.
    - rewrite Qmult_comm, Qmult_div_r by exact Hnz. apply Qle_refl. }
  destruct (Qltb (max_qty * factor) _); injection Hcalc as <-.
  - repeat split; intros; lra.
  - repeat split; intros; lra.
Qed.

Lemma calculate_position_size_bounds_witness :
  exists qty,
    calculate_position_size 8 2 (6 # 10) Ex.default_settings Bid = Ok qty
    /\ 0 <= qty /\ qty <= 2.
Proof.
  destruct (calculate_position_size 8 2 (6 # 10) Ex.default_settings Bid)
    as [qty | e] eqn:E; [| vm_compute in E; discriminate].
  destruct (calculate_position_size_bounds 8 2 (6 # 10) Ex.default_settings Bid qty)
    as (H0 & Hmax & _); [reflexivity | vm_compute; discriminate | exact E |].
  exists qty. repeat split; [exact H0 | apply Hmax; reflexivity].
Defined.

(** X6: the side that would reduce the position held is never quoted
    smaller than the side that would add to it: with a long inventory the
    ask quantity is at least the bid quantity, with a short inventory the
    bid quantity is at least the ask quantity, and with no inventory the
    two are equal. *)
Theorem calculate_position_size_sides :
  forall (price max_position current_inventory : Q) (settings : StrategySettings)
         (bid ask : Q),
    0 < price ->
    0 <= portfolio_value settings ->
    calculate_position_size price max_position current_inventory settings Bid = Ok bid ->
    calculate_position_size price max_position current_inventory settings Ask = Ok ask ->
    (0 < current_inventory -> bid <= ask)
    /\ (current_inventory < 0 -> ask <= bid)
    /\ (current_inventory == 0 -> bid == ask).
Proof.
  intros price max_position inv settings bid ask Hprice Hpv Hbid Hask.
  assert (Hnz : ~ price == 0) by lra.
  set (markets := Z.max (Z.of_nat (length (primary_markets settings))) 1).
  assert (Hmarkets : 0 < inject_Z markets).
  { change 0 with (inject_Z 0). rewrite <- Zlt_Qlt. subst markets. lia. }
  set (half := portfolio_value settings / inject_Z markets * (1 # 2)).
  assert (Hhalf : 0 <= half).
  { subst half. apply Qmult_le_0_compat; [| discriminate].
    apply Qle_shift_div_l; [exact Hmarkets | lra]. }
  unfold calculate_position_size in Hbid, Hask. fold markets half in Hbid, Hask.
  rewrite !(py_div_ok _ price Hnz) in Hbid, Hask. cbn in Hbid, Hask.
  destruct (Qle_bool max_position 0) eqn:Emax.
  { injection Hbid as <-. injection Hask as <-. repeat split; intros; lra. }
  apply Qle_bool_false in Emax.
  pose proof (damp_range inv max_position Emax) as [Hd0 Hd1]. cbv zeta in Hd0, Hd1.
  set (damp := Py.max (3 # 10) _) in *.
  set (max_qty := Py.min (half / price) max_position) in *.
  set (min_qty := min_order_value settings / price) in *.
  assert (Hm0 : 0 <= max_qty).
  { assert (0 <= half / price) by (apply Qle_shift_div_l; [exact Hprice | lra]).
    subst max_qty. case_py; lra. }
  destruct (scaled_between max_qty damp Hm0 ltac:(lra) Hd1) as [Hq0 Hq1].
  assert (Hone : max_qty * 1 == max_qty) by ring.
  destruct (Qltb 0 inv) eqn:Elong; destruct (Qltb inv 0) eqn:Eshort;
    try apply Qltb_true in Elong; try apply Qltb_false in Elong;
    try apply Qltb_true in Eshort; try apply Qltb_false in Eshort;
    repeat match type of Hbid with
           | context [Qltb ?a ?b] =>
               let E := fresh "E" in
               destruct (Qltb a b) eqn:E;
               [apply Qltb_true in E | apply Qltb_false in E]
           end;
    repeat match type of Hask with
           | context [Qltb ?a ?b] =>
               let E := fresh "E" in
               destruct (Qltb a b) eqn:E;
               [apply Qltb_true in E | apply Qltb_false in E]
           end;
    injection Hbid as <-; injection Hask as <-;
    repeat split; intros; lra.
Qed.

Lemma calculate_position_size_sides_witness :
  exists bid ask,
    calculate_position_size 8 2 (6 # 10) Ex.default_settings Bid = Ok bid
    /\ calculate_position_size 8 2 (6 # 10) Ex.default_settings Ask = Ok ask
    /\ bid <= ask.
Proof.
  destruct (calculate_position_size 8 2 (6 # 10) Ex.default_settings Bid)
    as [bid | e] eqn:Eb; [| vm_compute in Eb; discriminate].
  destruct (calculate_position_size 8 2 (6 # 10) Ex.default_settings Ask)
    as [ask | e] eqn:Ea; [| vm_compute in Ea; discriminate].
  destruct (calculate_position_size_sides 8 2 (6 # 10) Ex.default_settings bid ask)
    as (Hlong & _); [reflexivity | vm_compute; discriminate | exact Eb | exact Ea |].
  exists bid, ask. repeat split. apply Hlong. reflexivity.
Defined.

(** ** Submitting an order *)

Lemma normalize_tif_values (value t : string) :
  _normalize_tif value = Ok t ->
  t = "Gtc"%string \/ t = "Ioc"%string \/ t = "Alo"%string.
Proof.
  unfold _normalize_tif.
  repeat match goal with
         | |- context [String.eqb ?a ?b] => destruct (String.eqb a b)
         end; intros [= <-]; auto.
Qed.

(** X7: [place_order] sends at most one request.  It sends none, leaves the
    exchange as it was and raises a [ValueError] when the order type is not
    LMT or LIMIT (in any case), when no limit price is given, when no
    signing wallet is configured, or when the time in force is not one of
    GTC, IOC, ALO; otherwise it sends exactly one request, for the coin of
    the symbol, as a buy exactly when the action is BUY (in any case), and
    returns what the exchange answers. *)
Theorem place_order_outcome :
  forall (X : Type) (sdk_order : X -> OrderReq -> X * result string)
         (self : HyperliquidClient) (w : @World X) (symbol action : string)
         (quantity : Q) (order_type : string) (limit_price : option Q)
         (tif : string) (reduce_only : bool),
    let valid_type :=
      String.eqb (Str.upper order_type) "LMT"
      || String.eqb (Str.upper order_type) "LIMIT" in
    match limit_price, _normalize_tif tif with
    | Some px, Ok t =>
        if valid_type && has_exchange self then
          let req := {| o_coin := _symbol_to_coin symbol;
                        o_is_buy := String.eqb (Str.upper action) "BUY";
                        o_sz := quantity; o_limit_px := px; o_tif := t;
                        o_reduce_only := reduce_only |} in
          place_order sdk_order self w symbol action quantity order_type
                      limit_price tif reduce_only
          = ({| exch := fst (sdk_order (exch w) req);
                submitted := submitted w ++ [req] |},
             snd (sdk_order (exch w) req))
        else
          exists msg,
            place_order sdk_order self w symbol action quantity order_type
                        limit_price tif reduce_only = (w, Raise (ValueError msg))
    | _, _ =>
        exists msg,
          place_order sdk_order self w symbol action quantity order_type
                      limit_price tif reduce_only = (w, Raise (ValueError msg))
    end.
Proof.
  intros X sdk_order self w symbol action quantity order_type limit_price tif
         reduce_only valid_type.
  unfold place_order, _require_exchange. fold valid_type.
  destruct limit_price as [px |].
  - destruct (_normalize_tif tif) as [t | e] eqn:Etif.
    + destruct valid_type; cbn [negb andb]; [| eauto].
      destruct (has_exchange self); [| eauto].
      unfold submit. now destruct (sdk_order (exch w) _).
    + destruct valid_type; cbn [negb]; [| eauto].
      destruct (has_exchange self); [| eauto].
      unfold _normalize_tif in Etif.
      repeat match type of Etif with
             | context [String.eqb ?a ?b] => destruct (String.eqb a b)
             end; try discriminate.
      injection Etif as <-. eauto.
  - destruct (_normalize_tif tif); destruct valid_type; cbn [negb]; eauto.
Qed.

(** With the order type, price and time in force the cycle uses, how
    [place_order] ends depends on the wallet alone. *)
Lemma place_order_cycle {X : Type} (sdk_order : X -> OrderReq -> X * result string)
    (self : HyperliquidClient) (w : @World X) (sym action : string) (qty px : Q) :
  let req := {| o_coin := _symbol_to_coin sym;
                o_is_buy := String.eqb (Str.upper action) "BUY";
                o_sz := qty; o_limit_px := px; o_tif := "Gtc";
                o_reduce_only := false |} in
  place_order sdk_order self w sym action qty "LMT" (Some px) "GTC" false =
    if has_exchange self
    then ({| exch := fst (sdk_order (exch w) req); submitted := submitted w ++ [req] |},
          snd (sdk_order (exch w) req))
    else (w, Raise (ValueError
                      "HYPERLIQUID_PRIVATE_KEY must be configured to submit orders")).
Proof.
  intros req. subst req. unfold place_order, _require_exchange, submit.
  change (Str.upper "LMT") with "LMT"%string.
  change (_normalize_tif "GTC") with (@Ok string "Gtc").
  destruct (has_exchange self); [| reflexivity].
  cbn. now destruct (sdk_order (exch w) _).
Qed.

(** ** Quoting one symbol *)

Lemma guard_positive (p : Q) :
  negb (truthy p) || Qle_bool p 0 = false -> 0 < p.
Proof.
  intros H. apply orb_false_iff in H as [_ H]. now apply Qle_bool_false.
Qed.

Lemma quote_sizes_ok (settings : StrategySettings) (mid max_position inv : Q)
    (decimals : Z) :
  0 < mid ->
  exists bid_raw ask_raw,
    calculate_position_size mid max_position inv settings Bid = Ok bid_raw
    /\ calculate_position_size mid max_position inv settings Ask = Ok ask_raw
    /\ quote_sizes settings mid max_position inv decimals
       = Ok (round_size bid_raw decimals, round_size ask_raw decimals).
Proof.
  intros Hmid.
  destruct (calculate_position_size_min mid max_position inv settings Bid Hmid)
    as (bid_raw & Hbid & _).
  destruct (calculate_position_size_min mid max_position inv settings Ask Hmid)
    as (ask_raw & Hask & _).
  exists bid_raw, ask_raw. repeat split; try assumption.
  unfold quote_sizes. now rewrite Hbid, Hask.
Qed.

(** The decision for one snapshot never fails: the price is tested before
    anything is divided by it. *)
Lemma quote_symbol_total (settings : StrategySettings) (analysis : Analysis)
    (ticker_map : gmap string Ticker) (snapshot : SymbolSnapshot) :
  exists decision, quote_symbol settings analysis ticker_map snapshot = Ok decision.
Proof.
  unfold quote_symbol.
  destruct (not_ticker _); [eauto |].
  destruct (or_num _ _) as [mid |]; [| eauto].
  destruct (negb (truthy mid) || Qle_bool mid 0) eqn:Eguard; [eauto |].
  apply guard_positive in Eguard.
  destruct (calculate_spreads _ _ _) as [bid_spread ask_spread].
  destruct (quote_sizes_ok settings mid (maxPosition (strategyRecommendations analysis))
              (inventory snapshot)
              (default 5%Z (ticker_map !! symbol snapshot ≫= tk_szDecimals)) Eguard)
    as (bid_raw & ask_raw & _ & _ & ->).
  cbn. destruct (_ || _); eauto.
Qed.

(** What a placed quote is made of. *)
Lemma quote_symbol_placed (settings : StrategySettings) (analysis : Analysis)
    (ticker_map : gmap string Ticker) (snapshot : SymbolSnapshot) (q : Quote) :
  quote_symbol settings analysis ticker_map snapshot = Ok (PlaceQuote q) ->
  let recs := strategyRecommendations analysis in
  let spreads := calculate_spreads (parameters analysis) (inventory snapshot)
                   (maxPosition recs) in
  exists mid bid_raw ask_raw decimals,
    0 < mid
    /\ calculate_position_size mid (maxPosition recs) (inventory snapshot) settings Bid
       = Ok bid_raw
    /\ calculate_position_size mid (maxPosition recs) (inventory snapshot) settings Ask
       = Ok ask_raw
    /\ bid_qty q = round_size bid_raw decimals
    /\ ask_qty q = round_size ask_raw decimals
    /\ ~ bid_qty q == 0 /\ ~ ask_qty q == 0
    /\ bid_price q =
         round_price (mid * (1 - clamp_spread (minSpread recs) (maxSpread recs)
                                   (fst spreads)))
    /\ ask_price q =
         round_price (mid * (1 + clamp_spread (minSpread recs) (maxSpread recs)
                                   (snd spreads))).
Proof.
  intros Hq recs spreads. unfold quote_symbol in Hq. fold recs in Hq.
  destruct (not_ticker _); [discriminate |].
  destruct (or_num _ _) as [mid |]; [| discriminate].
  destruct (negb (truthy mid) || Qle_bool mid 0) eqn:Eguard; [discriminate |].
  apply guard_positive in Eguard.
  fold spreads in Hq. destruct spreads as [bid_spread ask_spread] eqn:Es.
  set (decimals := default 5%Z _) in Hq.
  destruct (quote_sizes_ok settings mid (maxPosition recs) (inventory snapshot)
              decimals Eguard) as (bid_raw & ask_raw & Hbid & Hask & Hsizes).
  rewrite Hsizes in Hq. cbn in Hq.
  destruct (Qeq_bool (round_size bid_raw decimals) 0) eqn:Eb; [discriminate |].
  destruct (Qeq_bool (round_size ask_raw decimals) 0) eqn:Ea; [discriminate |].
  cbn in Hq. injection Hq as <-. cbn.
  exists mid, bid_raw, ask_raw, decimals.
  repeat split; try assumption; try reflexivity.
  - intros Hz. apply Qeq_bool_iff in Hz. congruence.
  - intros Hz. apply Qeq_bool_iff in Hz. congruence.
Qed.

(** X8: a symbol is quoted only with a size on both sides, and, when the
    lower spread bound is not negative, at a bid price that is not above
    the ask price. *)
Theorem quote_never_crossed :
  forall (settings : StrategySettings) (analysis : Analysis)
         (ticker_map : gmap string Ticker) (snapshot : SymbolSnapshot) (q : Quote),
    quote_symbol settings analysis ticker_map snapshot = Ok (PlaceQuote q) ->
    ~ bid_qty q == 0 /\ ~ ask_qty q == 0
    /\ (0 <= minSpread (strategyRecommendations analysis) ->
        bid_price q <= ask_price q).
Proof.
  intros settings analysis ticker_map snapshot q Hq.
  destruct (quote_symbol_placed _ _ _ _ _ Hq)
    as (mid & bid_raw & ask_raw & decimals & Hmid & _ & _ & _ & _ & Hb & Ha & -> & ->).
  repeat split; try assumption.
  intros Hmin. apply round_price_monotone.
  set (recs := strategyRecommendations analysis) in *.
  destruct (clamp_spread_range (minSpread recs) (maxSpread recs)
              (fst (calculate_spreads (parameters analysis) (inventory snapshot)
                      (maxPosition recs)))) as [Hlo_b _].
  destruct (clamp_spread_range (minSpread recs) (maxSpread recs)
              (snd (calculate_spreads (parameters analysis) (inventory snapshot)
                      (maxPosition recs)))) as [Hlo_a _].
  set (b := clamp_spread _ _ (fst _)) in *. set (a := clamp_spread _ _ (snd _)) in *.
  apply Qle_trans with (mid * 1).
  - rewrite !(Qmult_comm mid). apply Qmult_le_compat_r; lra.
  - rewrite !(Qmult_comm mid). apply Qmult_le_compat_r; lra.
Qed.

Lemma quote_never_crossed_witness :
  exists q,
    quote_symbol Ex.default_settings Ex.small_analysis Ex.small_tickers
      (Ex.snapshot "SOL-PERP" 8 (6 # 10)) = Ok (PlaceQuote q)
    /\ bid_price q <= ask_price q.
Proof.
  destruct (quote_symbol Ex.default_settings Ex.small_analysis Ex.small_tickers
              (Ex.snapshot "SOL-PERP" 8 (6 # 10))) as [[| q] | e] eqn:Hq;
    try (vm_compute in Hq; discriminate).
  exists q. split; [reflexivity |].
  destruct (quote_never_crossed _ _ _ _ _ Hq) as (_ & _ & Hcross).
  apply Hcross. vm_compute. discriminate.
Defined.

(** ** The cycle *)

Section CycleInvariants.

Context {X : Type} (sdk_order : X -> OrderReq -> X * result string).
Context {P : Type} (self : MarketMaker P).
Variables (dry_run : bool) (analysis : Analysis) (ticker_map : gmap string Ticker).

Lemma world_eta (w : @World X) :
  {| exch := exch w; submitted := submitted w ++ [] |} = w.
Proof. destruct w. cbn. now rewrite app_nil_r. Qed.

Lemma cycle_step_passes (w : @World X) (c : Counts) (snapshot : SymbolSnapshot) :
  exists w' c',
    cycle_step sdk_order self dry_run analysis ticker_map w c snapshot = (w', Ok c')
    /\ cycle_effect self dry_run 1 w c w' c'.
Proof.
  unfold cycle_step.
  destruct (quote_symbol_total (settings self) analysis ticker_map snapshot)
    as [[| q] ->].
  - exists w, (count_skipped c). split; [reflexivity |].
    exists []. cbn. rewrite app_nil_r.
    repeat split; try constructor; try lia; intros; lia.
  - destruct dry_run eqn:Edry.
    + exists w, (count_placed c). split; [reflexivity |].
      exists []. cbn. rewrite app_nil_r.
      repeat split; try constructor; try lia; intros; try discriminate; lia.
    + rewrite place_order_cycle.
      destruct (has_exchange (client self)) eqn:Ekey.
      * set (buy := {| o_coin := _; o_is_buy := String.eqb (Str.upper "BUY") _ |}).
        destruct (sdk_order (exch w) buy) as [x1 [r1 | e1]] eqn:Ebuy; cbn [fst snd].
        -- rewrite place_order_cycle, Ekey. cbn [exch submitted].
           set (sell := {| o_coin := _; o_is_buy := String.eqb (Str.upper "SELL") _ |}).
           destruct (sdk_order x1 sell) as [x2 [r2 | e2]] eqn:Esell; cbn [fst snd];
             eexists _, _; (split; [reflexivity |]);
             exists [buy; sell]; cbn; rewrite <- app_assoc;
             repeat split; try lia; try discriminate; try congruence;
             repeat constructor.
        -- eexists _, _. split; [reflexivity |].
           exists [buy]. cbn.
           repeat split; try lia; try discriminate; try congruence;
             repeat constructor.
      * exists w, c. split; [reflexivity |].
        exists []. cbn. rewrite app_nil_r.
        repeat split; try constructor; try lia; intros; lia.
Qed.

Lemma cycle_loop_passes (snapshots : list SymbolSnapshot) :
  forall (w : @World X) (c : Counts),
    exists w' c',
      cycle_loop sdk_order self dry_run analysis ticker_map snapshots w c = (w', Ok c')
      /\ cycle_effect self dry_run (length snapshots) w c w' c'.
Proof.
  induction snapshots as [| snapshot rest IH]; intros w c.
  - exists w, c. split; [reflexivity |].
    exists []. cbn. rewrite app_nil_r.
    repeat split; try constructor; try lia; intros; lia.
  - destruct (cycle_step_passes w c snapshot)
      as (w1 & c1 & Hstep & new1 & Hsub1 & Hlen1 & Hall1 & Hs1 & Hp1 & Hm1 & Hd1 & Hl1 & Hk1).
    destruct (IH w1 c1)
      as (w2 & c2 & Hloop & new2 & Hsub2 & Hlen2 & Hall2 & Hs2 & Hp2 & Hm2 & Hd2 & Hl2 & Hk2).
    exists w2, c2. split; [cbn [cycle_loop]; now rewrite Hstep |].
    exists (new1 ++ new2). cbn [length].
    split; [now rewrite Hsub2, Hsub1, app_assoc |].
    split; [rewrite length_app; lia |].
    split; [now apply Forall_app |].
    split; [lia |]. split; [lia |]. split; [lia |].
    split; [| split].
    + intros Hdry. destruct (Hd1 Hdry) as [-> E1]. destruct (Hd2 Hdry) as [-> E2].
      split; [reflexivity | lia].
    + intros Hlive. specialize (Hl1 Hlive). specialize (Hl2 Hlive).
      rewrite length_app. lia.
    + intros Hlive Hkey. destruct (Hk1 Hlive Hkey) as [-> E1].
      destruct (Hk2 Hlive Hkey) as [-> E2]. split; [reflexivity | lia].
Qed.

End CycleInvariants.

Section RunCycle.

Context {X : Type} (sdk_order : X -> OrderReq -> X * result string).
Context {P : Type} `{AnalysisProvider P} (self : MarketMaker P).

Lemma fetch_analysis_calls (snapshots : list SymbolSnapshot) :
  head (fst (_fetch_analysis self snapshots)) = Some (Primary, snapshots).
Proof.
  unfold _fetch_analysis.
  destruct (fetch_analysis _ _); [reflexivity |].
  now destruct (fallback_provider self).
Qed.

(** A cycle that ends with counts went through the loop, over the
    snapshots the primary provider was asked about. *)
Lemma run_cycle_completed (coingecko : HttpOutcome) (execute : bool)
    (w w' : @World X) (calls : list ProviderCall) (c : Counts) :
  run_cycle sdk_order self coingecko execute w = (w', calls, Ok c) ->
  exists snapshots,
    head calls = Some (Primary, snapshots)
    /\ snapshots <> []
    /\ cycle_effect self (negb execute) (length snapshots) w
         {| orders_placed := 0; orders_skipped := 0 |} w' c.
Proof.
  unfold run_cycle.
  destruct (get_positions (client self)) as [positions |]; [| discriminate].
  destruct (get_tickers (client self)) as [ticker_map |]; [| discriminate].
  destruct (_build_snapshots _ _ _ _) as [[| s snapshots] |]; try discriminate.
  pose proof (fetch_analysis_calls (s :: snapshots)) as Hcalls.
  destruct (_fetch_analysis self (s :: snapshots)) as [calls0 [analysis | e]];
    [| discriminate].
  destruct (cycle_loop_passes sdk_order self (negb execute) analysis ticker_map
              (s :: snapshots) w {| orders_placed := 0; orders_skipped := 0 |})
    as (w1 & c1 & -> & Heffect).
  intros [= <- <- <-]. exists (s :: snapshots).
  split; [exact Hcalls |]. split; [discriminate | exact Heffect].
Qed.

(** A cycle that raises did so before the loop. *)
Lemma run_cycle_raised (coingecko : HttpOutcome) (execute : bool)
    (w w' : @World X) (calls : list ProviderCall) (e : exn) :
  run_cycle sdk_order self coingecko execute w = (w', calls, Raise e) -> w' = w.
Proof.
  unfold run_cycle.
  destruct (get_positions (client self)) as [positions |]; [| now intros [= <- _ _]].
  destruct (get_tickers (client self)) as [ticker_map |]; [| now intros [= <- _ _]].
  destruct (_build_snapshots _ _ _ _) as [[| s snapshots] |];
    try (now intros [= <- _ _]).
  destruct (_fetch_analysis self (s :: snapshots)) as [calls0 [analysis | e0]];
    [| now intros [= <- _ _]].
  destruct (cycle_loop_passes sdk_order self (negb execute) analysis ticker_map
              (s :: snapshots) w {| orders_placed := 0; orders_skipped := 0 |})
    as (w1 & c1 & -> & _).
  discriminate.
Qed.

End RunCycle.

(** X9: a cycle that ends with an exception has sent nothing to the
    exchange: every failure (a read that fails, no snapshot, no analysis)
    comes before the first order, and the loop over the snapshots itself
    never raises. *)
Theorem run_cycle_failure_sends_nothing :
  forall (X : Type) (sdk_order : X -> OrderReq -> X * result string) (P : Type)
         (HP : AnalysisProvider P) (self : MarketMaker P) (coingecko : HttpOutcome)
         (execute : bool) (w w' : @World X) (calls : list ProviderCall) (e : exn),
    run_cycle sdk_order self coingecko execute w = (w', calls, Raise e) ->
    w' = w.
Proof. intros. eapply run_cycle_raised. eassumption. Qed.

Lemma run_cycle_failure_sends_nothing_witness :
  fst (fst (run_cycle Ex.accepting
              (Ex.maker (fun _ => Raise (AgentMarketError "timed out")) None
                        (Ex.hl_client [] {[ "BTC-PERP"%string := Ex.ticker 100 5 ]} true))
              (HttpRaises "offline") true Ex.world0))
  = Ex.world0.
Proof.
  destruct (run_cycle Ex.accepting _ (HttpRaises "offline") true Ex.world0)
    as [[w' calls] r] eqn:E.
  cbn [fst].
  assert (Hr : exists e, r = Raise e).
  { vm_compute in E. injection E as _ _ <-. eauto. }
  destruct Hr as [e ->].
  exact (run_cycle_failure_sends_nothing _ _ _ _ _ _ _ _ _ _ _ E).
Defined.

(** X10: a dry run never touches the exchange, and when it completes every
    snapshot is accounted for: the placed count plus twice the skipped
    count is twice the number of snapshots the provider was asked about. *)
Theorem run_cycle_dry_run :
  forall (X : Type) (sdk_order : X -> OrderReq -> X * result string) (P : Type)
         (HP : AnalysisProvider P) (self : MarketMaker P) (coingecko : HttpOutcome)
         (w w' : @World X) (calls : list ProviderCall) (r : result Counts),
    run_cycle sdk_order self coingecko false w = (w', calls, r) ->
    w' = w
    /\ forall c, r = Ok c ->
         exists snapshots,
           head calls = Some (Primary, snapshots)
           /\ (orders_placed c + 2 * orders_skipped c
               = 2 * Z.of_nat (length snapshots))%Z.
Proof.
  intros X sdk_order P HP self coingecko w w' calls r Hrun.
  destruct r as [c | e].
  - destruct (run_cycle_completed sdk_order self coingecko false w w' calls c Hrun)
      as (snapshots & Hcalls & _ & new & _ & _ & _ & _ & _ & _ & Hdry & _).
    destruct (Hdry eq_refl) as [-> Hcount]. split; [reflexivity |].
    intros c0 [= <-]. exists snapshots. split; [exact Hcalls |]. cbn in Hcount. lia.
  - split; [now apply (run_cycle_raised sdk_order self coingecko false w w' calls e) |].
    discriminate.
Qed.

Lemma run_cycle_dry_run_witness :
  fst (fst (run_cycle Ex.rejecting Ex.live_maker (HttpRaises "offline") false Ex.world0))
  = Ex.world0.
Proof.
  destruct (run_cycle Ex.rejecting Ex.live_maker (HttpRaises "offline") false Ex.world0)
    as [[w' calls] r] eqn:E.
  cbn [fst]. now destruct (run_cycle_dry_run _ _ _ _ _ _ _ _ _ _ E).
Defined.

(** X11: a live run that completes has sent at most two requests a
    snapshot, each a good-till-cancelled order that is not reduce-only; it
    counts as placed no more orders than it sent, and the placed count plus
    twice the skipped count is at most twice the number of snapshots.
    Without a signing wallet it sends nothing and places nothing. *)
Theorem run_cycle_live :
  forall (X : Type) (sdk_order : X -> OrderReq -> X * result string) (P : Type)
         (HP : AnalysisProvider P) (self : MarketMaker P) (coingecko : HttpOutcome)
         (w w' : @World X) (calls : list ProviderCall) (c : Counts),
    run_cycle sdk_order self coingecko true w = (w', calls, Ok c) ->
    exists snapshots new,
      head calls = Some (Primary, snapshots)
      /\ submitted w' = submitted w ++ new
      /\ (length new <= 2 * length snapshots)%nat
      /\ Forall (fun req => o_reduce_only req = false /\ o_tif req = "Gtc"%string) new
      /\ (0 <= orders_placed c <= Z.of_nat (length new))%Z
      /\ (0 <= orders_skipped c)%Z
      /\ (orders_placed c + 2 * orders_skipped c <= 2 * Z.of_nat (length snapshots))%Z
      /\ (has_exchange (client self) = false -> w' = w /\ orders_placed c = 0%Z).
Proof.
  intros X sdk_order P HP self coingecko w w' calls c Hrun.
  destruct (run_cycle_completed sdk_order self coingecko true w w' calls c Hrun)
    as (snapshots & Hcalls & _ & new & Hsub & Hlen & Hall & Hs & Hp & Hm & _ & Hlive & Hkey).
  exists snapshots, new. cbn in *.
  specialize (Hlive eq_refl).
  repeat split; try assumption; try lia.
  - now apply Hkey.
  - now apply Hkey.
Qed.

Lemma run_cycle_live_witness :
  exists (w' : @World nat) calls c,
    run_cycle Ex.first_only Ex.live_maker (HttpRaises "offline") true Ex.fresh
      = (w', calls, Ok c)
    /\ (orders_placed c <= Z.of_nat (length (submitted w')))%Z.
Proof.
  destruct (run_cycle Ex.first_only Ex.live_maker (HttpRaises "offline") true Ex.fresh)
    as [[w' calls] [c | e]] eqn:E; [| vm_compute in E; discriminate].
  exists w', calls, c. split; [reflexivity |].
  destruct (run_cycle_live _ _ _ _ _ _ _ _ _ _ E)
    as (snapshots & new & _ & Hsub & _ & _ & Hp & _).
  rewrite Hsub. cbn. lia.
Defined.

(** ** Flattening all positions *)

Lemma Qabs_nonzero_pos (q : Q) : ~ q == 0 -> 0 < Qabs q.
Proof.
  intros Hq. destruct (Qlt_le_dec 0 (Qabs q)) as [H | H]; [exact H |].
  exfalso. apply Hq. pose proof (Qabs_nonneg q) as H0.
  assert (Hz : Qabs q == 0) by lra.
  destruct (Qlt_le_dec q 0) as [Hneg | Hpos].
  - rewrite Qabs_neg in Hz by lra. lra.
  - rewrite Qabs_pos in Hz by lra. exact Hz.
Qed.

Lemma open_position_nonzero (pos : Position) :
  Qltb 0 (Qabs (pos_szi pos)) = true -> ~ pos_szi pos == 0.
Proof.
  intros H Hz. apply Qltb_true in H. rewrite Hz in H. discriminate.
Qed.

Section FlattenAll.

Context {X : Type} (sdk_order : X -> OrderReq -> X * result string).
Variables (dry_run : bool) (slippage : Q) (tickers : gmap string Ticker).

Lemma close_one_effect (pos : Position) (w : @World X)
    (summary : list CloseEntry) :
  ~ pos_szi pos == 0 ->
  exists w' entry new,
    close_one sdk_order dry_run slippage tickers (w, summary) pos
      = (w', summary ++ [entry])
    /\ ce_symbol entry = pos_symbol pos
    /\ submitted w' = submitted w ++ new
    /\ (length new <= 1)%nat
    /\ Forall (fun req => o_reduce_only req = true /\ o_tif req = "Ioc"%string
                          /\ 0 < o_sz req) new
    /\ (dry_run = true -> w' = w).
Proof.
  intros Hnz. pose proof (Qabs_nonzero_pos _ Hnz) as Hsize. unfold close_one.
  destruct (Qeq_bool (pos_szi pos) 0) eqn:E;
    [apply Qeq_bool_iff in E; contradiction |].
  destruct (if not_ticker _ then None else _) as [mid |].
  - destruct (negb (truthy mid)).
    + eexists w, _, []. rewrite app_nil_r. repeat split; auto.
    + destruct dry_run.
      * eexists w, _, []. rewrite app_nil_r. repeat split; auto.
      * unfold submit.
        destruct (sdk_order (exch w) _) as [x' [response | exc]];
          eexists _, _, [_]; cbn; repeat split; auto; discriminate.
  - eexists w, _, []. rewrite app_nil_r. repeat split; auto.
Qed.

Lemma close_loop_effect (positions : list Position) :
  Forall (fun pos => ~ pos_szi pos == 0) positions ->
  forall (w : @World X) (summary : list CloseEntry),
    exists w' entries new,
      fold_left (close_one sdk_order dry_run slippage tickers) positions (w, summary)
        = (w', summary ++ entries)
      /\ map ce_symbol entries = map pos_symbol positions
      /\ submitted w' = submitted w ++ new
      /\ (length new <= length positions)%nat
      /\ Forall (fun req => o_reduce_only req = true /\ o_tif req = "Ioc"%string
                            /\ 0 < o_sz req) new
      /\ (dry_run = true -> w' = w).
Proof.
  induction 1 as [| pos rest Hpos Hrest IH]; intros w summary.
  - exists w, [], []. cbn. rewrite !app_nil_r.
    repeat split; try constructor; auto.
  - destruct (close_one_effect pos w summary Hpos)
      as (w1 & entry & new1 & Hone & Hsym & Hsub1 & Hlen1 & Hall1 & Hdry1).
    destruct (IH w1 (summary ++ [entry]))
      as (w2 & entries & new2 & Hloop & Hsyms & Hsub2 & Hlen2 & Hall2 & Hdry2).
    exists w2, (entry :: entries), (new1 ++ new2).
    cbn [fold_left]. rewrite Hone, Hloop, <- app_assoc. cbn [app map length].
    split; [reflexivity |].
    split; [now rewrite Hsym, Hsyms |].
    split; [now rewrite Hsub2, Hsub1, app_assoc |].
    split; [rewrite length_app; lia |].
    split; [now apply Forall_app |].
    intros Hd. rewrite (Hdry2 Hd). now apply Hdry1.
Qed.

End FlattenAll.

Lemma open_positions_nonzero (all_positions : list Position) :
  Forall (fun pos => ~ pos_szi pos == 0)
         (List.filter (fun pos => Qltb 0 (Qabs (pos_szi pos))) all_positions).
Proof.
  apply List.Forall_forall. intros pos Hin.
  apply filter_In in Hin as [_ Hopen]. now apply open_position_nonzero.
Qed.

(** X12: whatever [close_positions] sends is a reduce-only
    immediate-or-cancel order of positive size, at most one for each
    position of nonzero size; a dry run sends nothing, and so does a call
    that raises. *)
Theorem close_positions_orders :
  forall (X : Type) (sdk_order : X -> OrderReq -> X * result string)
         (self : HyperliquidClient) (w w' : @World X) (dry_run : bool) (slippage : Q)
         (r : result (list CloseEntry)),
    close_positions sdk_order self w dry_run slippage = (w', r) ->
    exists new,
      submitted w' = submitted w ++ new
      /\ Forall (fun req => o_reduce_only req = true /\ o_tif req = "Ioc"%string
                            /\ 0 < o_sz req) new
      /\ (forall all_positions, get_positions self = Ok all_positions ->
            (length new <= length (List.filter (fun pos => Qltb 0 (Qabs (pos_szi pos)))
                                               all_positions))%nat)
      /\ (dry_run = true -> w' = w)
      /\ (forall e, r = Raise e -> w' = w).
Proof.
  intros X sdk_order self w w' dry_run slippage r. unfold close_positions.
  assert (Hnothing : forall r0, (w, r0) = (w', r) ->
    exists new, submitted w' = submitted w ++ new
      /\ Forall (fun req => o_reduce_only req = true /\ o_tif req = "Ioc"%string
                            /\ 0 < o_sz req) new
      /\ (forall all_positions, get_positions self = Ok all_positions ->
            (length new <= length (List.filter (fun pos => Qltb 0 (Qabs (pos_szi pos)))
                                               all_positions))%nat)
      /\ (dry_run = true -> w' = w)
      /\ (forall e, r = Raise e -> w' = w)).
  { intros r0 [= <- _]. exists []. rewrite app_nil_r.
    repeat split; auto. intros; cbn; lia. }
  destruct (get_positions self) as [all_positions |]; [| apply Hnothing].
  pose proof (open_positions_nonzero all_positions) as Hopen.
  destruct (List.filter _ all_positions) as [| pos rest] eqn:Efilter; [apply Hnothing |].
  destruct (get_tickers self) as [tickers |]; [| apply Hnothing].
  destruct (if dry_run then Ok tt else _require_exchange self); [| apply Hnothing].
  destruct (close_loop_effect sdk_order dry_run slippage tickers (pos :: rest) Hopen w [])
    as (w1 & entries & new & -> & _ & Hsub & Hlen & Hall & Hdry).
  intros [= <- <-]. exists new.
  repeat split; try assumption.
  - intros all0 [= <-]. now rewrite Efilter.
  - discriminate.
Qed.

Lemma close_positions_orders_witness :
  exists new,
    submitted (fst (close_positions Ex.accepting Ex.short_client Ex.world0 false (2 # 100)))
    = submitted Ex.world0 ++ new
    /\ Forall (fun req => o_reduce_only req = true /\ o_tif req = "Ioc"%string
                          /\ 0 < o_sz req) new.
Proof.
  destruct (close_positions Ex.accepting Ex.short_client Ex.world0 false (2 # 100))
    as [w' r] eqn:E.
  destruct (close_positions_orders _ _ _ _ _ _ _ _ E) as (new & Hsub & Hall & _).
  exists new. split; assumption.
Defined.

(** X13: when [close_positions] returns, its summary has one entry for each
    position of nonzero size, in the order of the positions and under their
    symbols.  With no such position it returns the empty summary without
    asking for the tickers or the wallet; with one, a live call without a
    signing wallet raises a [ValueError]. *)
Theorem close_positions_summary :
  forall (X : Type) (sdk_order : X -> OrderReq -> X * result string)
         (self : HyperliquidClient) (w : @World X) (dry_run : bool) (slippage : Q)
         (all_positions : list Position),
    get_positions self = Ok all_positions ->
    let open := List.filter (fun pos => Qltb 0 (Qabs (pos_szi pos))) all_positions in
    (forall w' summary,
       close_positions sdk_order self w dry_run slippage = (w', Ok summary) ->
       map ce_symbol summary = map pos_symbol open)
    /\ (open = [] ->
        close_positions sdk_order self w dry_run slippage = (w, Ok []))
    /\ (open <> [] -> dry_run = false -> has_exchange self = false ->
        forall tickers, get_tickers self = Ok tickers ->
        exists msg,
          close_positions sdk_order self w dry_run slippage = (w, Raise (ValueError msg))).
Proof.
  intros X sdk_order self w dry_run slippage all_positions Hpos open.
  unfold close_positions. rewrite Hpos. fold open.
  pose proof (open_positions_nonzero all_positions) as Hopen. fold open in Hopen.
  split; [| split].
  - intros w' summary. destruct open as [| pos rest]; [now intros [= _ <-] |].
    destruct (get_tickers self) as [tickers |]; [| discriminate].
    destruct (if dry_run then Ok tt else _require_exchange self); [| discriminate].
    destruct (close_loop_effect sdk_order dry_run slippage tickers (pos :: rest) Hopen w [])
      as (w1 & entries & new & -> & Hsyms & _).
    now intros [= _ <-].
  - now intros ->.
  - intros Hne -> Hkey tickers ->. destruct open; [congruence |].
    unfold _require_exchange. rewrite Hkey. eauto.
Qed.

Lemma close_positions_summary_witness :
  exists w' summary,
    close_positions Ex.accepting Ex.short_client Ex.world0 false (2 # 100)
      = (w', Ok summary)
    /\ map ce_symbol summary = ["ETH-PERP"%string].
Proof.
  destruct (close_positions_summary unit Ex.accepting Ex.short_client Ex.world0 false
              (2 # 100) [Ex.short_position] eq_refl) as [Hsummary _].
  destruct (close_positions Ex.accepting Ex.short_client Ex.world0 false (2 # 100))
    as [w' [summary | e]] eqn:E; [| vm_compute in E; discriminate].
  exists w', summary. split; [reflexivity |]. now apply (Hsummary w').
Defined.

(** ** More on polling *)

Lemma poll_loop_trace (self : AgentMarketClient) chat remaining :
  forall attempt,
    exists k,
      (k <= remaining)%nat
      /\ fst (poll_loop self chat remaining attempt)
         = flat_map (attempt_events (poll_interval (am_settings self))) (seq attempt k).
Proof.
  induction remaining as [| remaining IH]; intros attempt.
  - exists 0%nat. split; [lia | reflexivity].
  - cbn [poll_loop]. destruct (IH (S attempt)) as (k & Hk & Htrace).
    destruct (poll_loop self chat remaining (S attempt)) as [evs r]. cbn [fst] in Htrace.
    assert (Hgo : exists k0, (k0 <= S remaining)%nat
              /\ (match attempt with
                  | O => []
                  | S _ => [Sleep (poll_interval (am_settings self))]
                  end) ++ Fetch attempt :: evs
                 = flat_map (attempt_events (poll_interval (am_settings self)))
                            (seq attempt k0)).
    { exists (S k). split; [lia |]. cbn [seq flat_map].
      rewrite <- Htrace, <- poll_loop_step_events, <- app_assoc. reflexivity. }
    assert (Hstop : exists k0, (k0 <= S remaining)%nat
              /\ (match attempt with
                  | O => []
                  | S _ => [Sleep (poll_interval (am_settings self))]
                  end) ++ [Fetch attempt]
                 = flat_map (attempt_events (poll_interval (am_settings self)))
                            (seq attempt k0)).
    { exists 1%nat. split; [lia |]. cbn [seq flat_map].
      now rewrite app_nil_r, poll_loop_step_events. }
    destruct (chat attempt) as [messages | exc].
    + destruct (List.filter is_provider_message messages) as [| m ms]; [exact Hgo |].
      destruct (sort_desc (m :: ms)); exact Hstop.
    + destruct (is_RequestException exc); [exact Hgo | exact Hstop].
Qed.

(** X14: whatever the provider does, [poll_provider_message] makes at most
    the configured number of fetches, sleeping the configured interval
    before each but the first and nowhere else; with a maximum of zero or
    less it returns no result without any fetch. *)
Theorem poll_provider_message_bounded :
  forall (self : AgentMarketClient) (chat : nat -> result (list ChatMessage)),
    (exists fetches,
       (fetches <= Z.to_nat (max_polls (am_settings self)))%nat
       /\ fst (poll_provider_message self chat)
          = expected_trace (poll_interval (am_settings self)) fetches)
    /\ ((max_polls (am_settings self) <= 0)%Z ->
        poll_provider_message self chat = ([], Ok None)).
Proof.
  intros self chat. split.
  - apply poll_loop_trace.
  - intros Hmax. unfold poll_provider_message.
    replace (Z.to_nat (max_polls (am_settings self))) with 0%nat by lia. reflexivity.
Qed.

Lemma poll_provider_message_bounded_witness :
  poll_provider_message
    {| am_settings := {| api_key := "secret"; base_url := "https://api.agent.market";
                         poll_interval := 5; max_polls := 0 |} |} Ex.chat
  = ([], Ok None).
Proof.
  destruct (poll_provider_message_bounded
              {| am_settings := {| api_key := "secret";
                                   base_url := "https://api.agent.market";
                                   poll_interval := 5; max_polls := 0 |} |} Ex.chat)
    as [_ Hzero].
  apply Hzero. reflexivity.
Defined.

(** X15: an exception of a fetch that is not a [requests.RequestException]
    (the [AgentMarketError] of a payload that is no list, for one) is not
    absorbed: after quiet attempts it ends the polling at once and
    propagates. *)
Theorem poll_provider_message_aborts :
  forall (self : AgentMarketClient) (chat : nat -> result (list ChatMessage))
         (n : nat) (exc : exn),
    (n < Z.to_nat (max_polls (am_settings self)))%nat ->
    (forall k, (k < n)%nat -> quiet (chat k)) ->
    chat n = Raise exc ->
    is_RequestException exc = false ->
    poll_provider_message self chat
    = (expected_trace (poll_interval (am_settings self)) (S n), Raise exc).
Proof.
  intros self chat n exc Hn Hquiet Hchat Hexc.
  unfold poll_provider_message.
  replace (Z.to_nat (max_polls (am_settings self)))
    with (n + S (Z.to_nat (max_polls (am_settings self)) - S n))%nat by lia.
  rewrite poll_loop_quiet_run by (intros k Hk; now apply Hquiet).
  cbn [Nat.add poll_loop]. rewrite Hchat, Hexc, poll_loop_step_events.
  cbn [fst snd]. now rewrite expected_trace_S.
Qed.

Lemma poll_provider_message_aborts_witness :
  poll_provider_message Ex.agent_client
    (fun k => match k with
              | O => Ok []
              | S _ => Raise (AgentMarketError "Unexpected chat payload")
              end)
  = (expected_trace 5 2, Raise (AgentMarketError "Unexpected chat payload")).
Proof.
  apply (poll_provider_message_aborts Ex.agent_client _ 1%nat).
  - vm_compute. lia.
  - intros k Hk. replace k with 0%nat by lia. reflexivity.
  - reflexivity.
  - reflexivity.
Defined.

(** The message sorted to the front is the first of the list among those
    with the greatest timestamp. *)
Lemma sort_desc_first (l : list ChatMessage) (first : ChatMessage)
    (rest : list ChatMessage) :
  sort_desc l = first :: rest ->
  exists before after,
    l = before ++ first :: after
    /\ Forall (fun m => String.ltb (timestamp_key m) (timestamp_key first) = true) before
    /\ Forall (fun m => String.ltb (timestamp_key first) (timestamp_key m) = false) after.
Proof.
  revert first rest. induction l as [| x l IH]; intros first rest; [discriminate |].
  cbn [sort_desc fold_right]. fold (sort_desc l).
  destruct (sort_desc l) as [| h t] eqn:Hs.
  - cbn. intros [= <- <-]. destruct l as [| y l'].
    + exists [], []. repeat split; constructor.
    + exfalso. destruct (sort_desc_head (y :: l')) as (f & r & Hf & _);
        [discriminate | congruence].
  - destruct (IH h t eq_refl) as (before & after & -> & Hbefore & Hafter).
    cbn [insert_desc].
    destruct (String.ltb (timestamp_key x) (timestamp_key h)) eqn:E.
    + intros [= <- <-]. exists (x :: before), after.
      repeat split; [| exact Hafter]. now constructor.
    + intros [= <- <-]. exists [], (before ++ h :: after).
      repeat split; [constructor |].
      apply Forall_app. split.
      * eapply Forall_impl; [exact Hbefore |]. cbn. intros m Hm.
        eapply string_ltb_false_trans; [exact E | now apply string_ltb_asym].
      * constructor; [exact E |].
        eapply Forall_impl; [exact Hafter |]. cbn. intros m Hm.
        eapply string_ltb_false_trans; [exact E | exact Hm].
Qed.

(** X16: when several qualifying messages of the deciding attempt share
    the greatest timestamp, the one that comes first in the transcript is
    returned: every qualifying message before it has a strictly smaller
    timestamp, and none after it has a greater one. *)
Theorem poll_provider_message_first_of_latest :
  forall (self : AgentMarketClient) (chat : nat -> result (list ChatMessage))
         (n : nat) (messages : list ChatMessage),
    (n < Z.to_nat (max_polls (am_settings self)))%nat ->
    (forall k, (k < n)%nat -> quiet (chat k)) ->
    chat n = Ok messages ->
    List.filter is_provider_message messages <> [] ->
    exists before first after,
      List.filter is_provider_message messages = before ++ first :: after
      /\ snd (poll_provider_message self chat) = Ok (message first)
      /\ Forall (fun m => String.ltb (timestamp_key m) (timestamp_key first) = true)
                before
      /\ Forall (fun m => String.ltb (timestamp_key first) (timestamp_key m) = false)
                after.
Proof.
  intros self chat n messages Hn Hquiet Hchat Hne.
  unfold poll_provider_message.
  replace (Z.to_nat (max_polls (am_settings self)))
    with (n + S (Z.to_nat (max_polls (am_settings self)) - S n))%nat by lia.
  rewrite poll_loop_quiet_run by (intros k Hk; now apply Hquiet).
  cbn [Nat.add poll_loop snd]. rewrite Hchat.
  destruct (sort_desc_head _ Hne) as (first & rest & Hsort & _).
  destruct (sort_desc_first _ _ _ Hsort) as (before & after & Hsplit & Hb & Ha).
  exists before, first, after.
  rewrite Hsort. destruct (List.filter is_provider_message messages); [congruence |].
  cbn [snd]. repeat split; assumption.
Qed.

Lemma poll_provider_message_first_of_latest_witness :
  snd (poll_provider_message Ex.agent_client
         (fun _ => Ok [ {| sender := Some "provider"%string;
                           message := Some "one"%string;
                           timestamp := Some "2024-05-01"%string |};
                        {| sender := Some "provider"%string;
                           message := Some "two"%string;
                           timestamp := Some "2024-05-01"%string |} ]))
  = Ok (Some "one"%string).
Proof.
  destruct (poll_provider_message_first_of_latest Ex.agent_client
              (fun _ => Ok [ {| sender := Some "provider"%string;
                                message := Some "one"%string;
                                timestamp := Some "2024-05-01"%string |};
                             {| sender := Some "provider"%string;
                                message := Some "two"%string;
                                timestamp := Some "2024-05-01"%string |} ])
              0%nat _ ltac:(vm_compute; lia) ltac:(intros k Hk; lia) eq_refl
              ltac:(vm_compute; discriminate))
    as (before & first & after & Hsplit & Hrun & Hb & Ha).
  rewrite Hrun. vm_compute in Hsplit.
  destruct before as [| b0 before].
  - injection Hsplit as <- _. reflexivity.
  - injection Hsplit as <- Hrest. inversion Hb as [| ? ? Hlt _]; subst.
    destruct before as [| b1 before].
    + injection Hrest as <- _. vm_compute in Hlt. discriminate.
    + injection Hrest as _ Hnil. now destruct before.
Defined.

(** ** Strings *)

Lemma string_length_app (a b : string) :
  String.length (a ++ b) = (String.length a + String.length b)%nat.
Proof. induction a as [| c a IH]; simpl; [reflexivity | now rewrite IH]. Qed.

Lemma substring_app_prefix (a b : string) :
  String.substring 0 (String.length a) (a ++ b) = a.
Proof.
  induction a as [| c a IH]; simpl.
  - now destruct b.
  - now rewrite IH.
Qed.

Lemma substring_whole (b : string) : String.substring 0 (String.length b) b = b.
Proof. induction b as [| c b IH]; simpl; [reflexivity | now rewrite IH]. Qed.

Lemma substring_app_suffix (a b : string) :
  String.substring (String.length a) (String.length b) (a ++ b) = b.
Proof.
  induction a as [| c a IH]; simpl; [apply substring_whole | exact IH].
Qed.

Lemma endswith_app (a suffix : string) : Str.endswith (a ++ suffix) suffix = true.
Proof.
  unfold Str.endswith. cbv zeta. rewrite string_length_app.
  replace (String.length a + String.length suffix - String.length suffix)%nat
    with (String.length a) by lia.
  rewrite substring_app_suffix, String.eqb_refl, andb_true_r.
  apply Nat.leb_le. lia.
Qed.

Lemma map_chars_app (f : ascii -> ascii) (a b : string) :
  Str.map_chars f (a ++ b) = (Str.map_chars f a ++ Str.map_chars f b)%string.
Proof. induction a as [| c a IH]; simpl; [reflexivity | now rewrite IH]. Qed.

Lemma map_chars_length (f : ascii -> ascii) (a : string) :
  String.length (Str.map_chars f a) = String.length a.
Proof. induction a as [| c a IH]; simpl; [reflexivity | now rewrite IH]. Qed.

Lemma upper_char_idempotent (c : ascii) :
  Str.upper_char (Str.upper_char c) = Str.upper_char c.
Proof. destruct c as [[] [] [] [] [] [] [] []]; reflexivity. Qed.

Lemma upper_idempotent (s : string) : Str.upper (Str.upper s) = Str.upper s.
Proof.
  unfold Str.upper. induction s as [| c s IH]; cbn; [reflexivity |].
  now rewrite upper_char_idempotent, IH.
Qed.

Lemma split_on_without (sep : ascii) (s : string) :
  all_chars (fun c => negb (Ascii.eqb c sep)) s = true -> split_on sep s = [s].
Proof.
  induction s as [| c s IH]; cbn; [reflexivity |].
  intros H. apply andb_true_iff in H as [Hc Hs].
  apply negb_true_iff in Hc. rewrite Hc, (IH Hs). reflexivity.
Qed.

(** ** Coins and symbols *)

(** X17: the symbol [_coin_to_symbol] makes of a coin leads
    [_symbol_to_coin] back to the upper-cased part of the coin after its
    last colon; so a coin without colon that is in upper case comes back
    unchanged. *)
Theorem symbol_to_coin_of_coin_to_symbol :
  forall coin : string,
    _symbol_to_coin (_coin_to_symbol coin)
    = Str.upper (List.last (split_on ":" coin) EmptyString)
    /\ (all_chars (fun c => negb (Ascii.eqb c ":")) coin = true ->
        Str.upper coin = coin ->
        _symbol_to_coin (_coin_to_symbol coin) = coin).
Proof.
  intros coin.
  assert (Hback : forall base : string,
            _symbol_to_coin (base ++ "-PERP") = Str.upper base).
  { intros base. unfold _symbol_to_coin, Str.upper.
    rewrite map_chars_app.
    change (Str.map_chars Str.upper_char "-PERP") with "-PERP"%string.
    rewrite endswith_app, string_length_app.
    replace (String.length (Str.map_chars Str.upper_char base) + String.length "-PERP" - 5)%nat
      with (String.length (Str.map_chars Str.upper_char base)) by (cbn; lia).
    apply substring_app_prefix. }
  split.
  - unfold _coin_to_symbol. apply Hback.
  - intros Hcolon Hupper. unfold _coin_to_symbol.
    rewrite (split_on_without _ _ Hcolon). cbn [List.last].
    now rewrite Hback.
Qed.

Lemma symbol_to_coin_of_coin_to_symbol_witness :
  _symbol_to_coin (_coin_to_symbol "ETH") = "ETH"%string.
Proof.
  destruct (symbol_to_coin_of_coin_to_symbol "ETH") as [_ Hback].
  apply Hback; reflexivity.
Defined.

(** ** Normalising configuration values *)

(** X18: [_normalize_tif] returns only Gtc, Ioc or Alo, takes the empty
    value for GTC, and accepts each of its results as a value for itself;
    [_normalize_network] returns only mainnet or testnet, takes the empty
    value for mainnet, and accepts each of its results likewise. *)
Theorem normalize_canonical :
  (forall value t : string,
     _normalize_tif value = Ok t ->
     (t = "Gtc" \/ t = "Ioc" \/ t = "Alo")%string /\ _normalize_tif t = Ok t)
  /\ _normalize_tif "" = Ok "Gtc"%string
  /\ (forall value network : string,
        _normalize_network value = Ok network ->
        (network = "mainnet" \/ network = "testnet")%string
        /\ _normalize_network network = Ok network)
  /\ _normalize_network "" = Ok "mainnet"%string.
Proof.
  split; [| split; [reflexivity | split; [| reflexivity]]].
  - intros value t Ht.
    destruct (normalize_tif_values value t Ht) as [-> | [-> | ->]];
      split; auto; reflexivity.
  - intros value network. unfold _normalize_network.
    set (n := Str.lower _).
    destruct (String.eqb n "mainnet") eqn:E1.
    + apply String.eqb_eq in E1. rewrite E1. cbn [orb]. intros [= <-].
      split; [now left | reflexivity].
    + destruct (String.eqb n "testnet") eqn:E2; cbn [orb]; [| discriminate].
      apply String.eqb_eq in E2. rewrite E2. intros [= <-].
      split; [now right | reflexivity].
Qed.

Lemma normalize_canonical_witness :
  _normalize_tif "Ioc" = Ok "Ioc"%string
  /\ _normalize_network "testnet" = Ok "testnet"%string.
Proof.
  destruct normalize_canonical as (Htif & _ & Hnet & _).
  split.
  - apply (Htif " ioc "%string). reflexivity.
  - apply (Hnet " TestNet"%string). reflexivity.
Defined.

(** ** The configured markets *)

Lemma is_space_upper_char (c : ascii) :
  Str.is_space (Str.upper_char c) = Str.is_space c.
Proof. destruct c as [[] [] [] [] [] [] [] []]; reflexivity. Qed.

Lemma comma_upper_char (c : ascii) :
  Ascii.eqb (Str.upper_char c) "," = Ascii.eqb c ",".
Proof. destruct c as [[] [] [] [] [] [] [] []]; reflexivity. Qed.

Lemma lstrip_upper (s : string) :
  Str.lstrip (Str.upper s) = Str.upper (Str.lstrip s).
Proof.
  unfold Str.upper. induction s as [| c s IH]; simpl; [reflexivity |].
  rewrite is_space_upper_char. destruct (Str.is_space c); [exact IH | reflexivity].
Qed.

Lemma rstrip_upper (s : string) :
  Str.rstrip (Str.upper s) = Str.upper (Str.rstrip s).
Proof.
  unfold Str.upper. induction s as [| c s IH]; simpl; [reflexivity |].
  rewrite IH, is_space_upper_char.
  destruct (Str.rstrip s); simpl; [destruct (Str.is_space c) |]; reflexivity.
Qed.

Lemma strip_upper (s : string) : Str.strip (Str.upper s) = Str.upper (Str.strip s).
Proof. unfold Str.strip. now rewrite lstrip_upper, rstrip_upper. Qed.

Lemma rstrip_idempotent (s : string) : Str.rstrip (Str.rstrip s) = Str.rstrip s.
Proof.
  induction s as [| c s IH]; simpl; [reflexivity |].
  destruct (Str.rstrip s) as [| d r] eqn:E.
  - destruct (Str.is_space c) eqn:Ec; simpl; [reflexivity | now rewrite Ec].
  - simpl in *. now rewrite IH.
Qed.

Lemma lstrip_head (s : string) :
  Str.lstrip s = EmptyString
  \/ exists c t, Str.lstrip s = String c t /\ Str.is_space c = false.
Proof.
  induction s as [| c s IH]; simpl; [now left |].
  destruct (Str.is_space c) eqn:E; [exact IH | right; eauto].
Qed.

Lemma rstrip_keeps_head (c : ascii) (t : string) :
  Str.is_space c = false -> exists t', Str.rstrip (String c t) = String c t'.
Proof.
  intros Hc. simpl. destruct (Str.rstrip t); [rewrite Hc |]; eauto.
Qed.

Lemma strip_idempotent (s : string) : Str.strip (Str.strip s) = Str.strip s.
Proof.
  unfold Str.strip.
  destruct (lstrip_head s) as [-> | (c & t & -> & Hc)]; [reflexivity |].
  destruct (rstrip_keeps_head c t Hc) as [t' E].
  assert (Hl : Str.lstrip (Str.rstrip (String c t)) = Str.rstrip (String c t)).
  { rewrite E. simpl. now rewrite Hc. }
  now rewrite Hl, rstrip_idempotent.
Qed.

Lemma all_chars_lstrip (P : ascii -> bool) (s : string) :
  all_chars P s = true -> all_chars P (Str.lstrip s) = true.
Proof.
  induction s as [| c s IH]; simpl; [reflexivity |].
  intros H. destruct (Str.is_space c); [| exact H].
  apply andb_true_iff in H as [_ H]. now apply IH.
Qed.

Lemma all_chars_rstrip (P : ascii -> bool) (s : string) :
  all_chars P s = true -> all_chars P (Str.rstrip s) = true.
Proof.
  induction s as [| c s IH]; simpl; [reflexivity |].
  intros H. apply andb_true_iff in H as [Hc Hs]. specialize (IH Hs).
  destruct (Str.rstrip s); [destruct (Str.is_space c) |]; simpl;
    rewrite ?Hc; try reflexivity. exact IH.
Qed.

Lemma split_on_parts (sep : ascii) (s : string) :
  Forall (fun part => all_chars (fun c => negb (Ascii.eqb c sep)) part = true)
         (split_on sep s).
Proof.
  induction s as [| c s IH]; simpl; [now repeat constructor |].
  destruct (Ascii.eqb c sep) eqn:E; [now constructor |].
  destruct (split_on sep s) as [| part parts].
  - repeat constructor. simpl. now rewrite E.
  - inversion IH; subst. constructor; [| assumption]. simpl. now rewrite E.
Qed.

Lemma all_chars_upper_comma (s : string) :
  all_chars (fun c => negb (Ascii.eqb c ",")) s = true ->
  all_chars (fun c => negb (Ascii.eqb c ",")) (Str.upper s) = true.
Proof.
  unfold Str.upper. induction s as [| c s IH]; simpl; [reflexivity |].
  intros H. apply andb_true_iff in H as [Hc Hs].
  now rewrite comma_upper_char, Hc, IH.
Qed.

Lemma upper_nonempty (s : string) : Str.nonempty (Str.upper s) = Str.nonempty s.
Proof. now destruct s. Qed.

(** X19: whatever the variable holds, every market [_parse_markets]
    returns is non-empty, free of surrounding whitespace, in upper case and
    free of commas; and the settings built from them always have at least
    one market, the default three when nothing is left. *)
Theorem parse_markets_clean :
  forall (value : option string) (pv mov : Q),
    Forall (fun market =>
              market <> EmptyString
              /\ Str.strip market = market
              /\ Str.upper market = market
              /\ all_chars (fun c => negb (Ascii.eqb c ",")) market = true)
           (_parse_markets value)
    /\ primary_markets (mkStrategySettings pv mov (_parse_markets value)) <> []
    /\ (_parse_markets value = [] ->
        primary_markets (mkStrategySettings pv mov (_parse_markets value))
        = DEFAULT_MARKETS).
Proof.
  intros value pv mov.
  assert (Hdefault : Forall (fun market =>
              market <> EmptyString
              /\ Str.strip market = market
              /\ Str.upper market = market
              /\ all_chars (fun c => negb (Ascii.eqb c ",")) market = true)
           DEFAULT_MARKETS).
  { repeat constructor; discriminate. }
  split; [| split].
  - unfold _parse_markets. destruct value as [v |]; [| exact Hdefault].
    destruct (Str.nonempty v); [| exact Hdefault].
    apply Forall_map. apply List.Forall_forall. intros part Hin.
    apply filter_In in Hin as [Hin Hkeep].
    pose proof (split_on_parts "," v) as Hparts.
    rewrite List.Forall_forall in Hparts. specialize (Hparts part Hin).
    cbn beta. repeat split.
    + intros E. rewrite <- upper_nonempty in Hkeep. now rewrite E in Hkeep.
    + now rewrite strip_upper, strip_idempotent.
    + apply upper_idempotent.
    + apply all_chars_upper_comma. unfold Str.strip.
      now apply all_chars_rstrip, all_chars_lstrip.
  - unfold mkStrategySettings. cbn.
    destruct (_parse_markets value); discriminate.
  - intros ->. reflexivity.
Qed.

(** On an example: blanks and empty parts go, case is raised. *)
Example parse_markets_example :
  _parse_markets (Some " btc-perp, ,eth-perp ,"%string)
  = ["BTC-PERP"; "ETH-PERP"]%string.
Proof. reflexivity. Qed.

Lemma parse_markets_clean_witness :
  primary_markets (mkStrategySettings 1 1 (_parse_markets (Some ","%string)))
  = DEFAULT_MARKETS.
Proof.
  destruct (parse_markets_clean (Some ","%string) 1 1) as (_ & _ & Hdefault).
  apply Hdefault. reflexivity.
Defined.

(** ** The inventory map *)

Lemma inventory_step_key (inventory : gmap string Q) (pos : Position) :
  (let symbol :=
     if Str.nonempty (pos_symbol pos) then pos_symbol pos
     else if Str.nonempty (pos_coin pos) then (pos_coin pos ++ "-PERP")%string
     else pos_symbol pos in
   if Str.nonempty symbol then <[symbol := pos_szi pos]> inventory else inventory)
  = match position_key pos with
    | Some key => <[key := pos_szi pos]> inventory
    | None => inventory
    end.
Proof.
  unfold position_key. cbv zeta.
  destruct (Str.nonempty (pos_symbol pos)) eqn:Es; [now rewrite Es |].
  destruct (Str.nonempty (pos_coin pos)) eqn:Ec; [| now rewrite Es].
  destruct (pos_coin pos); [discriminate | reflexivity].
Qed.

Lemma inventory_fold_lookup (positions : list Position) (sym : string) :
  forall inventory : gmap string Q,
    fold_left
      (fun (inventory : gmap string Q) pos =>
         let symbol :=
           if Str.nonempty (pos_symbol pos) then pos_symbol pos
           else if Str.nonempty (pos_coin pos) then (pos_coin pos ++ "-PERP")%string
           else pos_symbol pos in
         if Str.nonempty symbol then <[symbol := pos_szi pos]> inventory
         else inventory)
      positions inventory !! sym
    = match last_quantity positions sym with
      | Some q => Some q
      | None => inventory !! sym
      end.
Proof.
  induction positions as [| pos rest IH]; intros inventory; [reflexivity |].
  cbn [fold_left last_quantity]. rewrite IH.
  destruct (last_quantity rest sym); [reflexivity |].
  rewrite inventory_step_key.
  destruct (position_key pos) as [key |] eqn:Ekey.
  - case_bool_decide as Hk.
    + injection Hk as ->. apply lookup_insert_eq.
    + apply lookup_insert_ne. congruence.
  - case_bool_decide; [discriminate | reflexivity].
Qed.

(** X20: the inventory map holds, for every symbol, the quantity of the
    last position filed under it (a position is filed under its symbol, or
    under its coin with the suffix -PERP when it has no symbol), and
    nothing for a symbol under which no position is filed; a position with
    neither symbol nor coin is left out. *)
Theorem build_inventory_map_lookup :
  forall (positions : list Position) (sym : string),
    _build_inventory_map positions !! sym = last_quantity positions sym.
Proof.
  intros positions sym. unfold _build_inventory_map.
  rewrite inventory_fold_lookup, lookup_empty.
  now destruct (last_quantity positions sym).
Qed.

(** On an example: the later of two positions of a symbol wins, a coin
    stands in for a missing symbol, and other symbols are absent. *)
Example build_inventory_map_example :
  let positions :=
    [ {| pos_coin := "ETH"; pos_symbol := "ETH-PERP"; pos_szi := 1 |};
      {| pos_coin := "SOL"; pos_symbol := ""; pos_szi := 3 |};
      {| pos_coin := "ETH"; pos_symbol := "ETH-PERP"; pos_szi := 2 |} ] in
  _build_inventory_map positions !! "ETH-PERP"%string = Some 2
  /\ _build_inventory_map positions !! "SOL-PERP"%string = Some 3
  /\ _build_inventory_map positions !! "BTC-PERP"%string = None.
Proof. repeat split; vm_compute; reflexivity. Qed.

(** ** The 24h changes *)

Section Changes.

Variables (symbols : list string) (data : gmap string (option Q)).

Local Abbreviation change_step :=
  (fun (output : gmap string Q) '(symbol, cg_id) =>
     if bool_decide (symbol ∈ symbols) then
       match mjoin (data !! cg_id) with
       | Some change => <[symbol := change]> output
       | None => output
       end
     else output).

Lemma assoc_get_absent (key : string) (m : list (string * string)) :
  key ∉ map fst m -> assoc_get key m = None.
Proof.
  induction m as [| [k v] m IH]; [reflexivity |]. cbn. intros Hnot.
  destruct (String.eqb k key) eqn:E.
  - apply String.eqb_eq in E. subst. exfalso. apply Hnot. now left.
  - apply IH. intros Hin. apply Hnot. now right.
Qed.

Lemma changes_fold_lookup (m : list (string * string)) (sym : string) :
  NoDup (map fst m) ->
  forall output : gmap string Q,
    fold_left change_step m output !! sym
    = match assoc_get sym m with
      | Some cg_id =>
          if bool_decide (sym ∈ symbols) then
            match mjoin (data !! cg_id) with
            | Some change => Some change
            | None => output !! sym
            end
          else output !! sym
      | None => output !! sym
      end.
Proof.
  induction m as [| [k v] m IH]; intros Hnodup output; [reflexivity |].
  cbn [map fst] in Hnodup. apply NoDup_cons in Hnodup as [Hk Hrest].
  cbn [fold_left assoc_get]. rewrite (IH Hrest).
  destruct (String.eqb k sym) eqn:E.
  - apply String.eqb_eq in E. subst k.
    rewrite (assoc_get_absent sym m Hk).
    destruct (bool_decide (sym ∈ symbols)); [| reflexivity].
    destruct (mjoin (data !! v)); [apply lookup_insert_eq | reflexivity].
  - apply String.eqb_neq in E.
    assert (Hother : change_step output (k, v) !! sym = output !! sym).
    { cbn. destruct (bool_decide (k ∈ symbols)); [| reflexivity].
      destruct (mjoin (data !! v)); [now apply lookup_insert_ne | reflexivity]. }
    rewrite Hother. reflexivity.
Qed.

End Changes.

Lemma omap_nil_all {A B : Type} (f : A -> option B) (l : list A) :
  omap f l = [] -> forall x, x ∈ l -> f x = None.
Proof.
  induction l as [| a l IH]; intros Hnil x Hin; [inversion Hin |].
  cbn in Hnil. destruct (f a) eqn:E; [discriminate |].
  apply elem_of_cons in Hin as [-> | Hin]; [exact E | now apply IH].
Qed.

(** X21: when [fetch_24h_changes] returns, its result holds for a symbol
    the change of the symbol's Coingecko id in the decoded answer, if the
    symbol is one of those asked for, has an id and the answer has a change
    for it, and nothing otherwise.  If none of the symbols has an id it
    returns the empty map without looking at the network; if the request
    raises it returns the empty map; if the body of the answer does not
    decode, that exception propagates. *)
Theorem fetch_24h_changes_lookup :
  forall (symbols : list string),
    let known := omap (fun symbol => assoc_get symbol COINGECKO_ID_MAP) symbols in
    (forall (data : gmap string (option Q)) (sym : string),
       exists changes,
         fetch_24h_changes (HttpAnswers (Ok data)) symbols = Ok changes
         /\ changes !! sym
            = if bool_decide (sym ∈ symbols)
              then assoc_get sym COINGECKO_ID_MAP ≫= (fun cg_id => mjoin (data !! cg_id))
              else None)
    /\ (known = [] -> forall coingecko, fetch_24h_changes coingecko symbols = Ok ∅)
    /\ (forall msg, fetch_24h_changes (HttpRaises msg) symbols = Ok ∅)
    /\ (known <> [] -> forall e,
          fetch_24h_changes (HttpAnswers (Raise e)) symbols = Raise e).
Proof.
  intros symbols known.
  assert (Hids : (list_to_set known : gset string) = ∅ <-> known = []).
  { split.
    - intros Hempty. destruct known as [| id rest]; [reflexivity |].
      exfalso. apply (not_elem_of_empty (C := gset string) id).
      rewrite <- Hempty. cbn. set_solver.
    - now intros ->. }
  split; [| split; [| split]].
  - intros data sym. unfold fetch_24h_changes. fold known.
    destruct (decide (list_to_set known = ∅)) as [Hempty | Hsome].
    + exists ∅. split; [reflexivity |]. rewrite lookup_empty.
      case_bool_decide as Hin; [| reflexivity].
      apply Hids in Hempty.
      now rewrite (omap_nil_all _ symbols Hempty sym Hin).
    + eexists. split; [reflexivity |].
      rewrite changes_fold_lookup by (apply (bool_decide_unpack _); vm_compute; exact I).
      rewrite lookup_empty.
      destruct (assoc_get sym COINGECKO_ID_MAP) as [cg_id |]; cbn.
      * case_bool_decide; [| reflexivity]. now destruct (mjoin (data !! cg_id)).
      * now case_bool_decide.
  - intros Hnone coingecko. unfold fetch_24h_changes. fold known.
    destruct (decide (list_to_set known = ∅)) as [_ | Hsome]; [reflexivity |].
    exfalso. apply Hsome. now apply Hids.
  - intros msg. apply fetch_24h_changes_request_failure.
  - intros Hsome e. unfold fetch_24h_changes. fold known.
    destruct (decide (list_to_set known = ∅)) as [Hempty | _]; [| reflexivity].
    exfalso. apply Hsome. now apply Hids.
Qed.

Lemma fetch_24h_changes_lookup_witness :
  forall coingecko, fetch_24h_changes coingecko ["DOGE-PERP"%string] = Ok ∅.
Proof.
  destruct (fetch_24h_changes_lookup ["DOGE-PERP"%string]) as (_ & Hnone & _).
  apply Hnone. reflexivity.
Defined.
